(** * The file/directory plugin of stoq-plugins-public (filedir/filedir.py)

    A shallow embedding of [FileDirPlugin]: its configuration, the three
    roles it plays (provider: [ingest]; connector: [save]; archiver:
    [archive] and [get]) and the parts of the Python runtime it calls
    ([hashlib.sha1], [os.path], [pathlib.Path.mkdir], [open], [os.scandir],
    [os.walk]), followed by the properties of the plugin. *)

From Stdlib Require Import ZArith List String Ascii Bool Lia Permutation.
From Stdlib Require Import Init.Byte.
Import ListNotations.

Local Open Scope string_scope.
Local Open Scope list_scope.

(** ** hashlib.sha1 (FIPS 180-4, section 6.1) *)

Module Sha1.
Local Open Scope Z_scope.

(** 32-bit words are integers in [0, 2^32); every operation wraps. *)
Definition wrap (x : Z) : Z := x mod 4294967296.
Definition add32 (x y : Z) : Z := wrap (x + y).
Definition rotl (n x : Z) : Z :=
  Z.lor (wrap (Z.shiftl x n)) (Z.shiftr x (32 - n)).
Definition not32 (x : Z) : Z := Z.lxor x 4294967295.

Definition Ch (x y z : Z) : Z := Z.lxor (Z.land x y) (Z.land (not32 x) z).
Definition Parity (x y z : Z) : Z := Z.lxor (Z.lxor x y) z.
Definition Maj (x y z : Z) : Z :=
  Z.lxor (Z.lxor (Z.land x y) (Z.land x z)) (Z.land y z).

(** Round function and round constant, by round number. *)
Definition f_t (t : nat) (x y z : Z) : Z :=
  if Nat.ltb t 20 then Ch x y z
  else if Nat.ltb t 40 then Parity x y z
  else if Nat.ltb t 60 then Maj x y z
  else Parity x y z.

Definition K_t (t : nat) : Z :=
  if Nat.ltb t 20 then 0x5a827999
  else if Nat.ltb t 40 then 0x6ed9eba1
  else if Nat.ltb t 60 then 0x8f1bbcdc
  else 0xca62c1d6.

Record state := State { h0 : Z; h1 : Z; h2 : Z; h3 : Z; h4 : Z }.

Definition initial : state :=
  State 0x67452301 0xefcdab89 0x98badcfe 0x10325476 0xc3d2e1f0.

(** Padding: a 1 bit, zeros up to 56 mod 64, the bit length on 8 bytes. *)
Definition be_bytes (n : nat) (x : Z) : list Z :=
  map (fun i => Z.land (Z.shiftr x (8 * Z.of_nat i)) 255) (rev (seq 0 n)).

Definition pad (msg : list Z) : list Z :=
  let len := List.length msg in
  let zeros := ((64 + 55 - Nat.modulo len 64) mod 64)%nat in
  msg ++ [128] ++ repeat 0 zeros ++ be_bytes 8 (8 * Z.of_nat len).

Fixpoint chunks (fuel : nat) (l : list Z) : list (list Z) :=
  match fuel with
  | O => []
  | S fuel' =>
      match l with
      | [] => []
      | _ => firstn 64 l :: chunks fuel' (skipn 64 l)
      end
  end.

Fixpoint be_words (fuel : nat) (l : list Z) : list Z :=
  match fuel with
  | O => []
  | S fuel' =>
      match l with
      | a :: b :: c :: d :: rest =>
          (Z.shiftl a 24 + Z.shiftl b 16 + Z.shiftl c 8 + d)
            :: be_words fuel' rest
      | _ => []
      end
  end.

(** Message schedule, most recent word first. *)
Fixpoint extend (n : nat) (ws : list Z) : list Z :=
  match n with
  | O => ws
  | S n' =>
      let w :=
        rotl 1 (Z.lxor (Z.lxor (Z.lxor (nth 2 ws 0) (nth 7 ws 0))
                               (nth 13 ws 0)) (nth 15 ws 0)) in
      extend n' (w :: ws)
  end.

Definition schedule (block : list Z) : list Z :=
  rev (extend 64 (rev (be_words 16 block))).

Definition round (st : state) (tw : nat * Z) : state :=
  let '(State a b c d e) := st in
  let '(t, w) := tw in
  let temp :=
    add32 (add32 (add32 (add32 (rotl 5 a) (f_t t b c d)) e) (K_t t)) w in
  State temp a (rotl 30 b) c d.

Definition compress (st : state) (block : list Z) : state :=
  let ws := schedule block in
  let '(State a b c d e) := fold_left round (combine (seq 0 80) ws) st in
  State (add32 (h0 st) a) (add32 (h1 st) b) (add32 (h2 st) c)
        (add32 (h3 st) d) (add32 (h4 st) e).

Definition digest_state (content : list byte) : state :=
  let msg := pad (map (fun b => Z.of_N (Byte.to_N b)) content) in
  fold_left compress (chunks (List.length msg) msg) initial.

(** Lowercase hexadecimal, as [hexdigest] prints it. *)
Definition nibble (x : Z) : ascii :=
  match Z.land x 15 with
  | 0 => "0" | 1 => "1" | 2 => "2" | 3 => "3" | 4 => "4" | 5 => "5"
  | 6 => "6" | 7 => "7" | 8 => "8" | 9 => "9" | 10 => "a" | 11 => "b"
  | 12 => "c" | 13 => "d" | 14 => "e" | _ => "f"
  end%char.

Definition hex8 (w : Z) (tail : string) : string :=
  String (nibble (Z.shiftr w 28)) (String (nibble (Z.shiftr w 24))
 (String (nibble (Z.shiftr w 20)) (String (nibble (Z.shiftr w 16))
 (String (nibble (Z.shiftr w 12)) (String (nibble (Z.shiftr w 8))
 (String (nibble (Z.shiftr w 4)) (String (nibble w) tail))))))).

Definition hexdigest (content : list byte) : string :=
  let '(State a b c d e) := digest_state content in
  hex8 a (hex8 b (hex8 c (hex8 d (hex8 e "")))).

(** The characters of a lowercase hexadecimal number. *)
Definition is_lower_hex (c : ascii) : bool :=
  existsb (Ascii.eqb c) (list_ascii_of_string "0123456789abcdef").

Definition all_lower_hex (s : string) : bool :=
  forallb is_lower_hex (list_ascii_of_string s).
End Sha1.

(** ** os.path (posixpath) *)

Module PosixPath.
Definition slash : ascii := "/"%char.
Definition is_slash (c : ascii) : bool := Ascii.eqb c slash.

Fixpoint has_slash (s : string) : bool :=
  match s with
  | EmptyString => false
  | String c r => is_slash c || has_slash r
  end.

Definition startswith_slash (s : string) : bool :=
  match s with
  | String c _ => is_slash c
  | EmptyString => false
  end.

Fixpoint endswith_slash (s : string) : bool :=
  match s with
  | EmptyString => false
  | String c EmptyString => is_slash c
  | String _ r => endswith_slash r
  end.

(** [str.split('/')]: the pieces between slashes, empty ones included. *)
Fixpoint split (s : string) : list string :=
  match s with
  | EmptyString => [EmptyString]
  | String c r =>
      if is_slash c then EmptyString :: split r
      else match split r with
           | h :: t => String c h :: t
           | [] => [String c EmptyString]
           end
  end.

(** ['/'.join(comps)] *)
Fixpoint join_slash (comps : list string) : string :=
  match comps with
  | [] => EmptyString
  | [c] => c
  | c :: rest => (c ++ String slash (join_slash rest))%string
  end.

(** [posixpath.isabs] *)
Definition isabs (p : string) : bool := startswith_slash p.

(** [posixpath.join(a, p)], two arguments. *)
Definition join (a p : string) : string :=
  if startswith_slash p then p
  else if (String.eqb a EmptyString || endswith_slash a)%bool
       then (a ++ p)%string
       else (a ++ String slash p)%string.

(** The number of leading slashes [normpath] keeps: two exactly when the
    path starts with exactly two, otherwise one for an absolute path. *)
Definition initial_slashes (p : string) : nat :=
  match p with
  | String c1 (String c2 (String c3 _)) =>
      if is_slash c1
      then if (is_slash c2 && negb (is_slash c3))%bool then 2 else 1
      else 0
  | String c1 (String c2 EmptyString) =>
      if is_slash c1 then if is_slash c2 then 2 else 1 else 0
  | String c1 EmptyString => if is_slash c1 then 1 else 0
  | EmptyString => 0
  end.

Definition dotdot : string := "..".

(** One pass of the loop of [normpath] over the components; [acc] is
    [new_comps]. *)
Definition norm_step (init : nat) (acc : list string) (comp : string)
  : list string :=
  if (String.eqb comp EmptyString || String.eqb comp ".")%bool then acc
  else if (negb (String.eqb comp dotdot)
           || (Nat.eqb init 0 && match acc with [] => true | _ => false end)
           || match rev acc with
              | last :: _ => String.eqb last dotdot
              | [] => false
              end)%bool
       then acc ++ [comp]
       else removelast acc.

Definition norm_comps (init : nat) (comps : list string) : list string :=
  fold_left (norm_step init) comps [].

Fixpoint slashes (n : nat) : string :=
  match n with
  | O => EmptyString
  | S n' => String slash (slashes n')
  end.

(** [posixpath.normpath] *)
Definition normpath (p : string) : string :=
  if String.eqb p EmptyString then "."
  else
    let init := initial_slashes p in
    let path := (slashes init ++ join_slash (norm_comps init (split p)))%string in
    if String.eqb path EmptyString then "." else path.

(** The path a process resolves: [p] itself when it is absolute, [p]
    under the working directory [cwd] otherwise. *)
Definition rooted (cwd p : string) : string :=
  if isabs p then p else join cwd p.

(** [posixpath.abspath] *)
Definition abspath (cwd p : string) : string := normpath (rooted cwd p).

(** [posixpath.basename]: what follows the last slash. *)
Fixpoint basename (p : string) : string :=
  match p with
  | EmptyString => EmptyString
  | String c r =>
      if has_slash r then basename r
      else if is_slash c then r else p
  end.

(** [p[:i]] for [i = p.rfind('/') + 1]: up to and including the last
    slash. *)
Fixpoint head_part (p : string) : string :=
  match p with
  | EmptyString => EmptyString
  | String c r =>
      if has_slash r then String c (head_part r)
      else if is_slash c then String c EmptyString else EmptyString
  end.

Fixpoint all_slashes (s : string) : bool :=
  match s with
  | EmptyString => true
  | String c r => is_slash c && all_slashes r
  end.

(** [s.rstrip('/')] *)
Fixpoint rstrip_slash (s : string) : string :=
  match s with
  | EmptyString => EmptyString
  | String c r =>
      match rstrip_slash r with
      | EmptyString => if is_slash c then EmptyString else String c EmptyString
      | r' => String c r'
      end
  end.

(** [posixpath.dirname] *)
Definition dirname (p : string) : string :=
  let head := head_part p in
  if (negb (String.eqb head EmptyString) && negb (all_slashes head))%bool
  then rstrip_slash head
  else head.

(** A plain file name: not empty, not [.] or [..], free of slashes. *)
Definition is_name (s : string) : bool :=
  (negb (String.eqb s EmptyString) && negb (String.eqb s ".")
   && negb (String.eqb s dotdot) && negb (has_slash s))%bool.
End PosixPath.

(** ** The file system and the system calls the plugin makes

    A tree of directories, regular files and special entries.  There are no
    symbolic links and no permissions, so a path is resolved lexically from
    the working directory, the way [abspath] normalises it. *)

Module Fs.
Inductive error :=
| FileExistsError
| FileNotFoundError
| NotADirectoryError
| IsADirectoryError
| OSError
| KeyError
| StoqPluginException.

Definition error_eqb (a b : error) : bool :=
  match a, b with
  | FileExistsError, FileExistsError
  | FileNotFoundError, FileNotFoundError
  | NotADirectoryError, NotADirectoryError
  | IsADirectoryError, IsADirectoryError
  | OSError, OSError
  | KeyError, KeyError
  | StoqPluginException, StoqPluginException => true
  | _, _ => false
  end.

Inductive result (A : Type) :=
| Ok (a : A)
| Err (e : error).
Arguments Ok {A} a.
Arguments Err {A} e.

Definition is_ok {A} (r : result A) : bool :=
  match r with Ok _ => true | Err _ => false end.

(** [Special] is an entry that is neither a directory nor a readable
    regular file (a socket, a dangling link): [is_dir] and [is_file] are
    both false for it and opening it raises [OSError]. *)
#[warnings="-register-all"]
Inductive node :=
| File (content : list byte)
| Special
| Dir (entries : list (string * node)).

Fixpoint find (name : string) (es : list (string * node)) : option node :=
  match es with
  | [] => None
  | (n, x) :: rest => if String.eqb n name then Some x else find name rest
  end.

Fixpoint replace (name : string) (x : node) (es : list (string * node))
  : list (string * node) :=
  match es with
  | [] => []
  | (n, y) :: rest =>
      if String.eqb n name then (n, x) :: rest
      else (n, y) :: replace name x rest
  end.

(** Follow [comps] down from [n]. *)
Fixpoint lookup (comps : list string) (n : node) : result node :=
  match comps with
  | [] => Ok n
  | c :: cs =>
      match n with
      | Dir es =>
          match find c es with
          | Some child => lookup cs child
          | None => Err FileNotFoundError
          end
      | _ => Err NotADirectoryError
      end
  end.

(** A chain of new, empty directories. *)
Fixpoint fresh_dirs (comps : list string) : node :=
  match comps with
  | [] => Dir []
  | c :: cs => Dir [(c, fresh_dirs cs)]
  end.

(** [Path.mkdir(parents=True, exist_ok=True)] on the directory [comps]
    below [n]: the missing directories are made, the existing ones are
    left alone, and a non-directory on the way is an error. *)
Fixpoint mkdir_p (comps : list string) (n : node) : result node :=
  match n with
  | Dir es =>
      match comps with
      | [] => Ok n
      | c :: cs =>
          match find c es with
          | Some child =>
              match mkdir_p cs child with
              | Ok child' => Ok (Dir (replace c child' es))
              | Err e => Err e
              end
          | None => Ok (Dir (es ++ [(c, fresh_dirs cs)]))
          end
      end
  | _ =>
      Err (match comps with [] => FileExistsError | _ => NotADirectoryError end)
  end.

(** [open(path, 'x')] followed by the write: the file is made with
    [content] if nothing has that name yet. *)
Fixpoint create (comps : list string) (content : list byte) (n : node)
  : result node :=
  match comps with
  | [] => Err IsADirectoryError
  | c :: cs =>
      match n with
      | Dir es =>
          match cs with
          | [] =>
              match find c es with
              | Some _ => Err FileExistsError
              | None => Ok (Dir (es ++ [(c, File content)]))
              end
          | _ =>
              match find c es with
              | Some child =>
                  match create cs content child with
                  | Ok child' => Ok (Dir (replace c child' es))
                  | Err e => Err e
                  end
              | None => Err FileNotFoundError
              end
          end
      | _ => Err NotADirectoryError
      end
  end.

(** The components of [p] taken from the root, as [normpath] leaves them:
    where a path that went through [abspath] leads. *)
Definition components (cwd p : string) : list string :=
  PosixPath.norm_comps 1 (PosixPath.split (PosixPath.rooted cwd p)).

(** A path whose last component is empty, [.] or [..] names a directory. *)
Definition names_dir (p : string) : bool :=
  let last := PosixPath.basename p in
  (String.eqb last EmptyString || String.eqb last "."
   || String.eqb last PosixPath.dotdot)%bool.

Definition open_x (cwd p : string) (content : list byte) (root : node)
  : result node :=
  if names_dir p then Err IsADirectoryError
  else create (components cwd p) content root.

(** [open(path, 'rb').read()] *)
Definition read_file (cwd p : string) (root : node) : result (list byte) :=
  match lookup (components cwd p) root with
  | Ok (File content) =>
      if names_dir p then Err NotADirectoryError else Ok content
  | Ok (Dir _) => Err IsADirectoryError
  | Ok Special => Err OSError
  | Err e => Err e
  end.

Definition mkdir_parents (cwd p : string) (root : node) : result node :=
  mkdir_p (components cwd p) root.

(** *** A path as the system resolves it

    The components are gone through from the root, [acc] being the place
    reached so far.  A [..] leaves the directory reached so far, which
    therefore has to be there and to be a directory: [missing/..] and
    [file/..] are errors, they do not cancel out. *)
Fixpoint resolve_from (root : node) (acc comps : list string)
  : result (list string) :=
  match comps with
  | [] => Ok acc
  | c :: rest =>
      if (String.eqb c EmptyString || String.eqb c ".")%bool
      then resolve_from root acc rest
      else if String.eqb c PosixPath.dotdot then
        match lookup acc root with
        | Ok (Dir _) => resolve_from root (removelast acc) rest
        | Ok _ => Err NotADirectoryError
        | Err e => Err e
        end
      else resolve_from root (acc ++ [c]) rest
  end.

Definition resolve (cwd p : string) (root : node) : result (list string) :=
  resolve_from root [] (PosixPath.split (PosixPath.rooted cwd p)).

(** [os.stat]: what a path leads to.  The empty path leads nowhere, and
    a path that ends in a slash, [.] or [..] leads to a directory or
    nowhere. *)
Definition stat (cwd p : string) (root : node) : result node :=
  if String.eqb p EmptyString then Err FileNotFoundError
  else
    match resolve cwd p root with
    | Ok comps =>
        match lookup comps root with
        | Ok (Dir es) => Ok (Dir es)
        | Ok x => if names_dir p then Err NotADirectoryError else Ok x
        | Err e => Err e
        end
    | Err e => Err e
    end.

(** [open(path, 'rb').read()] on a path as it is given. *)
Definition read_path (cwd p : string) (root : node) : result (list byte) :=
  match stat cwd p root with
  | Ok (File content) => Ok content
  | Ok (Dir _) => Err IsADirectoryError
  | Ok Special => Err OSError
  | Err e => Err e
  end.

(** [os.path.isdir] and [os.path.isfile] *)
Definition isdir (cwd p : string) (root : node) : bool :=
  match stat cwd p root with
  | Ok (Dir _) => true
  | _ => false
  end.

Definition isfile (cwd p : string) (root : node) : bool :=
  match stat cwd p root with
  | Ok (File _) => true
  | _ => false
  end.

(** [os.scandir]: the entries of a directory, in the order the system
    lists them. *)
Definition scandir (cwd p : string) (root : node)
  : result (list (string * node)) :=
  match stat cwd p root with
  | Ok (Dir es) => Ok es
  | Ok _ => Err NotADirectoryError
  | Err e => Err e
  end.

(** [os.path.exists] *)
Definition path_exists (cwd p : string) (root : node) : bool :=
  match lookup (components cwd p) root with
  | Ok _ => true
  | Err _ => false
  end.

Definition is_dir (x : node) : bool :=
  match x with Dir _ => true | _ => false end.

Definition is_file (x : node) : bool :=
  match x with File _ => true | _ => false end.

(** [os.walk(top)], top down: a directory's triple, then the triples of
    its subdirectories; whatever is not a directory is listed with the
    files. *)
Fixpoint walk (top : string) (n : node)
  : list (string * list string * list string) :=
  match n with
  | Dir es =>
      (top,
       map fst (filter (fun e => is_dir (snd e)) es),
       map fst (filter (fun e => negb (is_dir (snd e))) es))
      :: flat_map
           (fun e =>
              match snd e with
              | Dir _ => walk (PosixPath.join top (fst e)) (snd e)
              | _ => []
              end) es
  | _ => []
  end.

(** [os.walk] on a path as it is given; a top that cannot be listed
    gives no triple and no error ([onerror] is left unset). *)
Definition os_walk (cwd top : string) (root : node)
  : list (string * list string * list string) :=
  match stat cwd top root with
  | Ok n => walk top n
  | Err _ => []
  end.

(** *** What a file system guarantees

    The names in a directory are plain and distinct. *)

Fixpoint distinct (names : list string) : bool :=
  match names with
  | [] => true
  | x :: rest => negb (existsb (String.eqb x) rest) && distinct rest
  end.

Definition names_ok (es : list (string * node)) : bool :=
  forallb (fun e => PosixPath.is_name (fst e)) es && distinct (map fst es).

Fixpoint well_formed (n : node) : bool :=
  match n with
  | Dir es => names_ok es && forallb (fun e => well_formed (snd e)) es
  | _ => true
  end.

(** Only directories and regular files. *)
Fixpoint regular (n : node) : bool :=
  match n with
  | File _ => true
  | Special => false
  | Dir es => forallb (fun e => regular (snd e)) es
  end.

(** The regular files below a directory: the directories to go through,
    the name, the content. *)
Definition file_entry (e : string * node)
  : list (list string * string * list byte) :=
  match snd e with
  | File c => [([], fst e, c)]
  | _ => []
  end.

Definition below (d : string) (f : list string * string * list byte)
  : list string * string * list byte :=
  (d :: fst (fst f), snd (fst f), snd f).

Fixpoint files_under (n : node) : list (list string * string * list byte) :=
  match n with
  | Dir es =>
      flat_map file_entry es
      ++ flat_map
           (fun e =>
              match snd e with
              | Dir _ => map (below (fst e)) (files_under (snd e))
              | _ => []
              end) es
  | _ => []
  end.

Definition dir_entry (e : string * node)
  : list (list string * string * list byte) :=
  match snd e with
  | Dir _ => map (below (fst e)) (files_under (snd e))
  | _ => []
  end.
End Fs.

(** ** filedir.py *)

Module FileDir.
Import Fs.

(** *** The types of stoq the plugin handles *)

Record PayloadMeta := { extra_data : list (string * string) }.

Record PayloadResults := { payload_id : string }.

Record Payload := {
  content : list byte;
  payload_meta : PayloadMeta;
  results : PayloadResults
}.

(** The part of a [StoqResponse] the plugin reads, and the rest of it. *)
Record StoqResponse := {
  scan_id : string;
  response_body : string
}.

Record ArchiverResponse := { archiver_results : list (string * string) }.

Definition Request : Type := unit.

(** *** What the process and the host supply *)

Record env := {
  getcwd : string;
  (** [datetime.now().strftime(fmt)] *)
  now_strftime : string -> string;
  (** [helpers.dumps(response, compactly=...)] *)
  dumps : StoqResponse -> bool -> string;
  (** the identifier [Payload(...)] draws for itself, by draw number *)
  uuid4 : nat -> string
}.

(** The state the plugin works on: the file system, the queue handed to
    [ingest], and how many identifiers have been drawn. *)
Record world := {
  fs : node;
  queue : list Payload;
  drawn : nat
}.

(** *** State and exceptions *)

Definition M (A : Type) : Type := world -> result A * world.

Definition ret {A} (a : A) : M A := fun w => (Ok a, w).

Definition raise {A} (e : error) : M A := fun w => (Err e, w).

Definition bind {A B} (m : M A) (k : A -> M B) : M B :=
  fun w =>
    match m w with
    | (Ok a, w') => k a w'
    | (Err e, w') => (Err e, w')
    end.

Notation "x <- m ;; k" := (bind m (fun x => k))
  (at level 61, m at next level, right associativity).
Notation "m ;;; k" := (bind m (fun _ => k))
  (at level 61, right associativity).

(** [try: m except e: pass] *)
Definition except_pass (e : error) (m : M unit) : M unit :=
  fun w =>
    match m w with
    | (Err e', w') => if error_eqb e e' then (Ok tt, w') else (Err e', w')
    | r => r
    end.

Fixpoint for_each {A} (l : list A) (body : A -> M unit) : M unit :=
  match l with
  | [] => ret tt
  | x :: rest => body x ;;; for_each rest body
  end.

Definition get_fs : M node := fun w => (Ok (fs w), w).

Definition set_fs (w : world) (fs' : node) : world :=
  {| fs := fs'; queue := queue w; drawn := drawn w |}.

Definition lift_fs (f : node -> result node) : M unit :=
  fun w =>
    match f (fs w) with
    | Ok fs' => (Ok tt, set_fs w fs')
    | Err e => (Err e, w)
    end.

Definition lift_read {A} (f : node -> result A) : M A :=
  fun w => (f (fs w), w).

(** [Payload(content, meta)]: the constructor draws a fresh identifier. *)
Definition new_Payload (e : env) (c : list byte) (meta : PayloadMeta)
  : M Payload :=
  fun w =>
    (Ok {| content := c; payload_meta := meta;
           results := {| payload_id := uuid4 e (drawn w) |} |},
     {| fs := fs w; queue := queue w; drawn := S (drawn w) |}).

(** [queue.put(item)] *)
Definition put (item : Payload) : M unit :=
  fun w =>
    (Ok tt, {| fs := fs w; queue := queue w ++ [item]; drawn := drawn w |}).

(** What the host receives of a queued payload: the bytes and the
    metadata. *)
Definition work_unit (p : Payload) : list byte * list (string * string) :=
  (content p, extra_data (payload_meta p)).

(** The unit [_queue] makes of the file [name] with content [c] found in
    the directory [dir]. *)
Definition unit_for (dir name : string) (c : list byte)
  : list byte * list (string * string) :=
  (c, [("filename", name);
       ("source_dir", PosixPath.dirname (PosixPath.join dir name))]).

Definition file_content (x : node) : list byte :=
  match x with File c => c | _ => [] end.

(** The world after [items] were made and queued. *)
Definition queued (w : world) (items : list Payload) : world :=
  {| fs := fs w; queue := queue w ++ items;
     drawn := drawn w + List.length items |}.

(** [w'] has the file system of [w] and its queue, with more at the end. *)
Definition grows (w w' : world) : Prop :=
  fs w' = fs w /\ exists items, queue w' = queue w ++ items.

(** *** The plugin *)

Record FileDirPlugin := {
  source_dir : option string;
  recursive : bool;
  results_dir : string;
  date_mode : bool;
  date_format : string;
  compactly : bool;
  archive_dir : string;
  use_sha : bool
}.

Definition sep (a b : string) : string :=
  (a ++ String PosixPath.slash b)%string.

Definition startswith_dot (s : string) : bool :=
  match s with
  | String c _ => Ascii.eqb c "."%char
  | EmptyString => false
  end.

Definition _queue (e : env) (path : string) : M unit :=
  let meta :=
    {| extra_data :=
         [("filename", PosixPath.basename path);
          ("source_dir", PosixPath.dirname path)] |} in
  c <- lift_read (read_path (getcwd e) path) ;;
  item <- new_Payload e c meta ;;
  put item.

Definition ingest (self : FileDirPlugin) (e : env) : M unit :=
  match source_dir self with
  | None => raise StoqPluginException
  | Some EmptyString => raise StoqPluginException
  | Some src =>
      root <- get_fs ;;
      if isdir (getcwd e) src root then
        if recursive self then
          for_each (os_walk (getcwd e) src root)
            (fun triple =>
               let '(root_path, subdirs, files) := triple in
               for_each files
                 (fun entry =>
                    let path := PosixPath.join root_path entry in
                    _queue e path))
        else
          entries <- lift_read (scandir (getcwd e) src) ;;
          for_each entries
            (fun entry =>
               if (negb (startswith_dot (fst entry)) && is_file (snd entry))%bool
               then
                 let path := PosixPath.join src (fst entry) in
                 _queue e path
               else ret tt)
      else if isfile (getcwd e) src root then _queue e src
      else ret tt
  end.

(** The entries the loop over [os.scandir] takes (line 69). *)
Definition visible (entry : string * node) : bool :=
  (negb (startswith_dot (fst entry)) && is_file (snd entry))%bool.

(** The body of the loop over [os.walk] (lines 64-66). *)
Definition walk_body (e : env) (triple : string * list string * list string)
  : M unit :=
  let '(root_path, subdirs, files) := triple in
  for_each files
    (fun entry =>
       let path := PosixPath.join root_path entry in
       _queue e path).

(** The unit of the file [f] found below [src]: the directories gone
    through are joined to [src] one by one, as [os.walk] does. *)
Definition unit_at (src : string) (f : list string * string * list byte)
  : list byte * list (string * string) :=
  unit_for (fold_left PosixPath.join (fst (fst f)) src) (snd (fst f)) (snd f).

(** The directory [save] writes in (lines 95-100), before and after
    [abspath]. *)
Definition save_dir_raw (self : FileDirPlugin) (e : env) : string :=
  let path := results_dir self in
  if date_mode self
  then sep path (now_strftime e (date_format self))
  else path.

Definition save_dir (self : FileDirPlugin) (e : env) : string :=
  PosixPath.abspath (getcwd e) (save_dir_raw self e).

Definition newline : string := String "010"%char EmptyString.

(** The text [save] writes (line 103), as bytes. *)
Definition saved_bytes (self : FileDirPlugin) (e : env)
  (response : StoqResponse) : list byte :=
  list_byte_of_string (dumps e response (compactly self) ++ newline)%string.

Definition save (self : FileDirPlugin) (e : env) (response : StoqResponse)
  : M unit :=
  let filename := scan_id response in
  let path := save_dir self e in
  lift_fs (mkdir_parents (getcwd e) path) ;;;
  lift_fs (open_x (getcwd e) (sep path filename)
             (saved_bytes self e response)).

(** ["/".join(list(filename[:5]))] *)
Definition shard (filename : string) : string :=
  PosixPath.join_slash
    (map (fun c => String c EmptyString)
         (firstn 5 (list_ascii_of_string filename))).

(** The file name and the directory [archive] settles on
    (lines 110-118). *)
Definition archive_location (self : FileDirPlugin) (e : env)
  (payload : Payload) : string * string :=
  let path := archive_dir self in
  let filename := payload_id (results payload) in
  let '(filename, path) :=
    if use_sha self then
      let filename := Sha1.hexdigest (content payload) in
      (filename, sep path (shard filename))
    else if date_mode self then
      (filename, sep path (now_strftime e (date_format self)))
    else (filename, path) in
  (filename, PosixPath.abspath (getcwd e) path).

(** The path of the archived file: [f'{path}/{filename}']. *)
Definition archive_path (self : FileDirPlugin) (e : env) (payload : Payload)
  : string :=
  sep (snd (archive_location self e payload))
      (fst (archive_location self e payload)).

(** The locator [archive] returns (line 125). *)
Definition locator (path filename : string) : ArchiverResponse :=
  {| archiver_results := [("path", sep path filename)] |}.

Definition archive (self : FileDirPlugin) (e : env) (payload : Payload)
  (request : Request) : M ArchiverResponse :=
  let '(filename, path) := archive_location self e payload in
  lift_fs (mkdir_parents (getcwd e) path) ;;;
  except_pass FileExistsError
    (lift_fs (open_x (getcwd e) (sep path filename) (content payload))) ;;;
  ret (locator path filename).

Fixpoint dict_get (key : string) (d : list (string * string))
  : option string :=
  match d with
  | [] => None
  | (k, v) :: rest => if String.eqb k key then Some v else dict_get key rest
  end.

Definition get (self : FileDirPlugin) (e : env) (task : ArchiverResponse)
  : M Payload :=
  match dict_get "path" (archiver_results task) with
  | None => raise KeyError
  | Some p =>
      let path := PosixPath.abspath (getcwd e) p in
      let meta := {| extra_data := archiver_results task |} in
      c <- lift_read (read_file (getcwd e) path) ;;
      new_Payload e c meta
  end.
End FileDir.

(** ** Sample configurations and worlds *)

Module Samples.
Import Fs FileDir.

Definition host : env :=
  {| getcwd := "/home/stoq";
     now_strftime := fun _ => "2024/05/17";
     dumps := fun r compact =>
                if compact then response_body r
                else (response_body r ++ " ")%string;
     uuid4 := fun n => String (ascii_of_nat (48 + n)) EmptyString |}.

(** The defaults of [__init__], with a source directory. *)
Definition defaults : FileDirPlugin :=
  {| source_dir := Some "/data";
     recursive := false;
     results_dir := "/home/stoq/results";
     date_mode := false;
     date_format := "%Y/%m/%d";
     compactly := true;
     archive_dir := "/tmp/arc";
     use_sha := true |}.

Definition by_id : FileDirPlugin :=
  {| source_dir := None;
     recursive := false;
     results_dir := "results";
     date_mode := true;
     date_format := "%Y/%m/%d";
     compactly := false;
     archive_dir := "archive";
     use_sha := false |}.

Definition recursively : FileDirPlugin :=
  {| source_dir := Some "/data";
     recursive := true;
     results_dir := "/home/stoq/results";
     date_mode := false;
     date_format := "%Y/%m/%d";
     compactly := true;
     archive_dir := "/tmp/arc";
     use_sha := true |}.

Definition bytes (s : string) : list byte := list_byte_of_string s.

Definition tree : node :=
  Dir [("data",
        Dir [("a.txt", File (bytes "alpha"));
             (".hidden", File (bytes "secret"));
             ("sub",
              Dir [("b.bin", File (bytes "beta"));
                   ("deep", Dir [("c", File (bytes "gamma"))])]);
             ("empty", Dir [])]);
       ("home", Dir [("stoq", Dir [])])].

Definition start : world := {| fs := tree; queue := []; drawn := 0 |}.

Definition hello : Payload :=
  {| content := bytes "hello";
     payload_meta := {| extra_data := [] |};
     results := {| payload_id := "7b0c6a52" |} |}.

(** Other bytes under the identifier of [hello]. *)
Definition other : Payload :=
  {| content := bytes "goodbye";
     payload_meta := {| extra_data := [] |};
     results := {| payload_id := "7b0c6a52" |} |}.

Definition response : StoqResponse :=
  {| scan_id := "scan-0001"; response_body := "{}" |}.

Definition response' : StoqResponse :=
  {| scan_id := "scan-0001"; response_body := "{1}" |}.

Definition nowhere : FileDirPlugin :=
  {| source_dir := Some "/nowhere";
     recursive := false;
     results_dir := "results";
     date_mode := false;
     date_format := "%Y/%m/%d";
     compactly := true;
     archive_dir := "archive";
     use_sha := true |}.

(** A world where regular files sit where the plugin wants directories. *)
Definition blocked : world :=
  {| fs :=
       Dir [("tmp", Dir [("arc", File (bytes "not a directory"))]);
            ("home", Dir [("stoq", Dir [("results", File (bytes "x"))])])];
     queue := [];
     drawn := 0 |}.

(** A world where a directory has the name [by_id] gives to [hello]. *)
Definition squatted : world :=
  {| fs :=
       Dir [("home",
             Dir [("stoq",
                   Dir [("archive",
                         Dir [("2024",
                               Dir [("05",
                                     Dir [("17",
                                           Dir [("7b0c6a52", Dir [])])])])])])])];
     queue := [];
     drawn := 0 |}.

(** A tree with a socket among the files of [/data]. *)
Definition with_socket : world :=
  {| fs :=
       Dir [("data",
             Dir [("a.txt", File (bytes "alpha"));
                  ("ctl.sock", Special);
                  ("z.txt", File (bytes "omega"))])];
     queue := [];
     drawn := 0 |}.

(** A configuration whose source is one file. *)
Definition one_file : FileDirPlugin :=
  {| source_dir := Some "/data/sub/b.bin";
     recursive := true;
     results_dir := "results";
     date_mode := false;
     date_format := "%Y/%m/%d";
     compactly := true;
     archive_dir := "archive";
     use_sha := true |}.

(** Sources that go up from a name that is missing, or from a file. *)
Definition above_missing : FileDirPlugin :=
  {| source_dir := Some "/data/missing/..";
     recursive := true;
     results_dir := "results";
     date_mode := false;
     date_format := "%Y/%m/%d";
     compactly := true;
     archive_dir := "archive";
     use_sha := true |}.

Definition through_file : FileDirPlugin :=
  {| source_dir := Some "/data/a.txt/../a.txt";
     recursive := false;
     results_dir := "results";
     date_mode := false;
     date_format := "%Y/%m/%d";
     compactly := true;
     archive_dir := "archive";
     use_sha := true |}.

(** The worlds after [hello] was archived, by digest and by identifier. *)
Definition archived : world := snd (archive defaults host hello tt start).

Definition archived_by_id : world := snd (archive by_id host hello tt start).
End Samples.

(** * Properties *)

(** ** The file-system operations *)

Module FsFacts.
Import Fs.

(** Induction over a tree, with the hypothesis for every entry of a
    directory. *)
Lemma node_induction (P : node -> Prop) :
  (forall c, P (File c)) ->
  P Special ->
  (forall es, Forall (fun e => P (snd e)) es -> P (Dir es)) ->
  forall n, P n.
Proof.
  intros HF HS HD. fix IH 1. intros [c | | es].
  - apply HF.
  - apply HS.
  - apply HD. induction es as [| [name x] es IHes]; constructor.
    + apply IH.
    + apply IHes.
Qed.

Lemma find_replace_same c x es :
  find c (replace c x es)
  = match find c es with Some _ => Some x | None => None end.
Proof.
  induction es as [| [n y] es IH]; simpl; [reflexivity |].
  destruct (String.eqb n c) eqn:E; simpl; rewrite E; auto.
Qed.

Lemma find_replace_other c c' x es :
  c <> c' -> find c' (replace c x es) = find c' es.
Proof.
  intros Hne. induction es as [| [n y] es IH]; simpl; [reflexivity |].
  destruct (String.eqb n c) eqn:E; simpl.
  - apply String.eqb_eq in E. subst n.
    destruct (String.eqb c c') eqn:E'; [| reflexivity].
    apply String.eqb_eq in E'. contradiction.
  - destruct (String.eqb n c'); auto.
Qed.

Lemma replace_same_id c x es : find c es = Some x -> replace c x es = es.
Proof.
  induction es as [| [n y] es IH]; simpl; [reflexivity |].
  destruct (String.eqb n c) eqn:E; intros H.
  - injection H as ->. reflexivity.
  - f_equal. auto.
Qed.

Lemma find_app_none c es l : find c es = None -> find c (es ++ l) = find c l.
Proof.
  induction es as [| [n y] es IH]; simpl; [reflexivity |].
  destruct (String.eqb n c); [discriminate | assumption].
Qed.

Lemma find_app_some c x es l :
  find c es = Some x -> find c (es ++ l) = Some x.
Proof.
  induction es as [| [n y] es IH]; simpl; [discriminate |].
  destruct (String.eqb n c); auto.
Qed.

Lemma find_singleton c x : find c [(c, x)] = Some x.
Proof. simpl. rewrite String.eqb_refl. reflexivity. Qed.

Lemma lookup_app p q n :
  lookup (p ++ q) n
  = match lookup p n with Ok m => lookup q m | Err e => Err e end.
Proof.
  revert n. induction p as [| c p IH]; intros n; simpl; [reflexivity |].
  destruct n as [? | | es]; try reflexivity.
  destruct (find c es); [apply IH | reflexivity].
Qed.

Lemma lookup_fresh_dirs q : lookup q (fresh_dirs q) = Ok (Dir []).
Proof.
  induction q as [| c q IH]; simpl; [reflexivity |].
  rewrite String.eqb_refl. assumption.
Qed.

(** After [mkdir_p] the directory is there. *)
Lemma mkdir_p_lookup q : forall n n',
  mkdir_p q n = Ok n' -> exists es, lookup q n' = Ok (Dir es).
Proof.
  induction q as [| c q IH]; intros n n' H.
  - destruct n as [? | | es]; simpl in H; try discriminate.
    injection H as <-. exists es. reflexivity.
  - destruct n as [? | | es]; simpl in H; try discriminate.
    destruct (find c es) as [child |] eqn:F.
    + destruct (mkdir_p q child) as [child' | e] eqn:Hm; [| discriminate].
      injection H as <-. simpl. rewrite find_replace_same, F.
      eapply IH. eassumption.
    + injection H as <-. simpl.
      rewrite (find_app_none _ _ _ F), find_singleton.
      exists []. apply lookup_fresh_dirs.
Qed.

(** [exist_ok]: on a directory that is there, [mkdir_p] changes nothing. *)
Lemma mkdir_p_id q : forall n es,
  lookup q n = Ok (Dir es) -> mkdir_p q n = Ok n.
Proof.
  induction q as [| c q IH]; intros n es H.
  - simpl in H. injection H as ->. reflexivity.
  - destruct n as [? | | es0]; simpl in H; try discriminate.
    simpl. destruct (find c es0) as [child |] eqn:F; [| discriminate].
    rewrite (IH _ _ H). rewrite (replace_same_id _ _ _ F). reflexivity.
Qed.

(** What was created can be read back. *)
Lemma create_lookup q c : forall n n',
  create q c n = Ok n' -> lookup q n' = Ok (File c).
Proof.
  induction q as [| a q IH]; intros n n' H; [discriminate |].
  destruct n as [? | | es]; simpl in H; try discriminate.
  destruct q as [| b q].
  - destruct (find a es) eqn:F; [discriminate |].
    injection H as <-. simpl.
    rewrite (find_app_none _ _ _ F), find_singleton. reflexivity.
  - destruct (find a es) as [child |] eqn:F; [| discriminate].
    destruct (create (b :: q) c child) as [child' | e] eqn:Hc; [| discriminate].
    injection H as <-.
    change (lookup (a :: b :: q) (Dir (replace a child' es)))
      with (match find a (replace a child' es) with
            | Some ch => lookup (b :: q) ch
            | None => Err FileNotFoundError
            end).
    rewrite find_replace_same, F. eapply IH. eassumption.
Qed.

(** Exclusive creation refuses a name that is taken. *)
Lemma create_exists q c : forall n x,
  q <> [] -> lookup q n = Ok x -> create q c n = Err FileExistsError.
Proof.
  induction q as [| a q IH]; intros n x Hq H; [contradiction |].
  destruct n as [? | | es]; simpl in H; try discriminate.
  destruct (find a es) as [child |] eqn:F; [| discriminate].
  destruct q as [| b q].
  - simpl. rewrite F. reflexivity.
  - change (create (a :: b :: q) c (Dir es))
      with (match find a es with
            | Some child =>
                match create (b :: q) c child with
                | Ok child' => Ok (Dir (replace a child' es))
                | Err e => Err e
                end
            | None => Err FileNotFoundError
            end).
    rewrite F. erewrite IH; [reflexivity | discriminate | eassumption].
Qed.

Lemma create_again q c c' n n' :
  create q c n = Ok n' -> create q c' n' = Err FileExistsError.
Proof.
  intros H. apply create_exists with (x := File c).
  - destruct q; [discriminate | discriminate].
  - eapply create_lookup. eassumption.
Qed.
(** Creating a file leaves every directory where it was. *)
Lemma create_preserves_dir q c : forall p n n' es,
  create q c n = Ok n' ->
  lookup p n = Ok (Dir es) ->
  exists es', lookup p n' = Ok (Dir es').
Proof.
  induction q as [| a q IH]; intros p n n' es H Hp; [discriminate |].
  destruct n as [? | | es0]; simpl in H; try discriminate.
  destruct q as [| b q].
  - destruct (find a es0) eqn:F; [discriminate |].
    injection H as <-.
    destruct p as [| a' p]; simpl; [eauto |].
    simpl in Hp. destruct (find a' es0) as [ch |] eqn:F'; [| discriminate].
    rewrite (find_app_some _ _ _ _ F'). eauto.
  - destruct (find a es0) as [child |] eqn:F; [| discriminate].
    destruct (create (b :: q) c child) as [child' | e] eqn:Hc; [| discriminate].
    injection H as <-.
    destruct p as [| a' p]; simpl; [eauto |].
    simpl in Hp. destruct (find a' es0) as [ch |] eqn:F'; [| discriminate].
    destruct (String.eqb a a') eqn:E.
    + apply String.eqb_eq in E. subst a'.
      rewrite find_replace_same, F. rewrite F in F'. injection F' as ->.
      eapply IH; eassumption.
    + apply String.eqb_neq in E.
      rewrite (find_replace_other _ _ _ _ E), F'. eauto.
Qed.

Lemma lookup_prefix_dir D f r n x :
  lookup (D ++ f :: r) n = Ok x -> exists es, lookup D n = Ok (Dir es).
Proof.
  rewrite lookup_app. destruct (lookup D n) as [m |]; [| discriminate].
  destruct m as [? | | es]; simpl; try discriminate. eauto.
Qed.

Lemma lookup_in_dir D f n es :
  lookup D n = Ok (Dir es) ->
  lookup (D ++ [f]) n
  = match find f es with Some x => Ok x | None => Err FileNotFoundError end.
Proof. intros H. rewrite lookup_app, H. reflexivity. Qed.

(** In an existing directory a free name can be created. *)
Lemma create_in_dir D f c : forall n es,
  lookup D n = Ok (Dir es) -> find f es = None ->
  exists n', create (D ++ [f]) c n = Ok n'.
Proof.
  induction D as [| a D IH]; intros n es H F.
  - simpl in H. injection H as ->. simpl. rewrite F. eauto.
  - destruct n as [? | | es0]; simpl in H; try discriminate.
    destruct (find a es0) as [child |] eqn:Fa; [| discriminate].
    destruct (IH _ _ H F) as [child' Hc].
    change (create ((a :: D) ++ [f]) c (Dir es0))
      with (create (a :: D ++ [f]) c (Dir es0)).
    simpl. destruct (D ++ [f]) eqn:Edf.
    + destruct D; discriminate.
    + rewrite Fa, Hc. eauto.
Qed.

(** In an existing directory, exclusive creation either succeeds or
    finds the name taken. *)
Lemma create_in_dir_outcome D f c n es :
  lookup D n = Ok (Dir es) ->
  (exists n', create (D ++ [f]) c n = Ok n')
  \/ (create (D ++ [f]) c n = Err FileExistsError
      /\ exists x, lookup (D ++ [f]) n = Ok x).
Proof.
  intros H. destruct (find f es) as [x |] eqn:F.
  - right. assert (Hl : lookup (D ++ [f]) n = Ok x)
      by (rewrite (lookup_in_dir _ _ _ _ H), F; reflexivity).
    split; [| eauto].
    eapply create_exists; [| eassumption]. destruct D; discriminate.
  - left. eapply create_in_dir; eassumption.
Qed.

(** [mkdir_p] does not fill the directory it makes. *)
Lemma mkdir_p_keeps_free D f : forall n n',
  mkdir_p D n = Ok n' ->
  (forall x, lookup (D ++ [f]) n <> Ok x) ->
  exists es, lookup D n' = Ok (Dir es) /\ find f es = None.
Proof.
  induction D as [| a D IH]; intros n n' H Hfree.
  - destruct n as [? | | es]; simpl in H; try discriminate.
    injection H as <-. exists es. split; [reflexivity |].
    simpl in Hfree. destruct (find f es) as [x |]; [| reflexivity].
    exfalso. apply (Hfree x). reflexivity.
  - destruct n as [? | | es]; simpl in H; try discriminate.
    destruct (find a es) as [child |] eqn:Fa.
    + destruct (mkdir_p D child) as [child' |] eqn:Hm; [| discriminate].
      injection H as <-. simpl. rewrite find_replace_same, Fa.
      apply (IH _ _ Hm). intros x Hx. apply (Hfree x).
      simpl. rewrite Fa. assumption.
    + injection H as <-. simpl.
      rewrite (find_app_none _ _ _ Fa), find_singleton.
      exists []. split; [apply lookup_fresh_dirs | reflexivity].
Qed.

(** [mkdir_p] keeps every file where it was. *)
Lemma mkdir_p_preserves_file D : forall p n n' c,
  mkdir_p D n = Ok n' ->
  lookup p n = Ok (File c) -> lookup p n' = Ok (File c).
Proof.
  induction D as [| a D IH]; intros p n n' c H Hp.
  - destruct n as [? | | es]; simpl in H; try discriminate.
    injection H as <-. assumption.
  - destruct n as [? | | es]; simpl in H; try discriminate.
    destruct p as [| a' p]; [discriminate |].
    simpl in Hp. destruct (find a' es) as [ch |] eqn:F'; [| discriminate].
    destruct (find a es) as [child |] eqn:Fa.
    + destruct (mkdir_p D child) as [child' |] eqn:Hm; [| discriminate].
      injection H as <-. simpl.
      destruct (String.eqb a a') eqn:E.
      * apply String.eqb_eq in E. subst a'.
        rewrite find_replace_same, Fa. rewrite Fa in F'. injection F' as ->.
        eapply IH; eassumption.
      * apply String.eqb_neq in E.
        rewrite (find_replace_other _ _ _ _ E), F'. assumption.
    + injection H as <-. simpl.
      rewrite (find_app_some _ _ _ _ F'). assumption.
Qed.

(** *** Directories with plain, distinct names *)

Lemma existsb_eqb_false x l :
  existsb (String.eqb x) l = false -> ~ In x l.
Proof.
  induction l as [| y l IH]; simpl; [tauto |].
  intros H [-> | Hin].
  - now rewrite String.eqb_refl in H.
  - apply orb_false_elim in H. now apply IH.
Qed.

Lemma names_ok_cons n x es :
  names_ok ((n, x) :: es) = true ->
  PosixPath.is_name n = true /\ ~ In n (map fst es) /\ names_ok es = true.
Proof.
  unfold names_ok. simpl. intros H.
  apply andb_prop in H. destruct H as [H1 H2].
  apply andb_prop in H1. destruct H1 as [Hn Hall].
  apply andb_prop in H2. destruct H2 as [Hnot Hd].
  apply negb_true_iff in Hnot.
  repeat split; [assumption | now apply existsb_eqb_false |].
  now rewrite Hall, Hd.
Qed.

Lemma find_not_in name es : ~ In name (map fst es) -> find name es = None.
Proof.
  induction es as [| [n x] es IH]; simpl; [reflexivity |].
  intros H. destruct (String.eqb n name) eqn:E.
  - apply String.eqb_eq in E. tauto.
  - apply IH. tauto.
Qed.

Lemma find_in name x es :
  names_ok es = true -> In (name, x) es -> find name es = Some x.
Proof.
  induction es as [| [n y] es IH]; simpl; [tauto |].
  intros Hok Hin. destruct (names_ok_cons _ _ _ Hok) as (_ & Hnot & Hok').
  destruct Hin as [Heq | Hin].
  - injection Heq as -> ->. now rewrite String.eqb_refl.
  - destruct (String.eqb n name) eqn:E; [| now apply IH].
    apply String.eqb_eq in E. subst n. exfalso. apply Hnot.
    apply in_map_iff. now exists (name, x).
Qed.

Lemma find_some_in name x es : find name es = Some x -> In (name, x) es.
Proof.
  induction es as [| [n y] es IH]; simpl; [discriminate |].
  destruct (String.eqb n name) eqn:E.
  - apply String.eqb_eq in E. intros H. injection H as ->. subst. now left.
  - intros H. right. now apply IH.
Qed.

Lemma names_ok_is_name es name x :
  names_ok es = true -> In (name, x) es -> PosixPath.is_name name = true.
Proof.
  unfold names_ok. intros H Hin. apply andb_prop in H. destruct H as [H _].
  rewrite forallb_forall in H. exact (H _ Hin).
Qed.

(** *** The regular files below a directory *)

Lemma well_formed_dir es :
  well_formed (Dir es) = true ->
  names_ok es = true
  /\ forall name x, In (name, x) es -> well_formed x = true.
Proof.
  simpl. intros H. apply andb_prop in H. destruct H as [Hn Hall].
  split; [assumption |]. intros name x Hin.
  rewrite forallb_forall in Hall. exact (Hall _ Hin).
Qed.

Lemma regular_dir es :
  regular (Dir es) = true -> forall name x, In (name, x) es -> regular x = true.
Proof.
  simpl. intros H name x Hin. rewrite forallb_forall in H. exact (H _ Hin).
Qed.


Lemma files_under_dir es :
  files_under (Dir es) = flat_map file_entry es ++ flat_map dir_entry es.
Proof. reflexivity. Qed.

Lemma in_file_entries ds name c es :
  In (ds, name, c) (flat_map file_entry es)
  <-> ds = [] /\ In (name, File c) es.
Proof.
  rewrite in_flat_map. split.
  - intros ([n x] & Hin & Hf). unfold file_entry in Hf. simpl in Hf.
    destruct x as [c' | |]; simpl in Hf; try tauto.
    destruct Hf as [Heq | []]. injection Heq as <- <- <-. auto.
  - intros [-> Hin]. exists (name, File c). split; [assumption | now left].
Qed.

Lemma in_dir_entries ds name c es :
  In (ds, name, c) (flat_map dir_entry es)
  <-> exists d es' ds',
        ds = d :: ds' /\ In (d, Dir es') es
        /\ In (ds', name, c) (files_under (Dir es')).
Proof.
  rewrite in_flat_map. split.
  - intros ([n x] & Hin & Hf). unfold dir_entry in Hf. simpl fst in Hf. simpl snd in Hf.
    destruct x as [? | | es']; try (simpl in Hf; tauto).
    apply in_map_iff in Hf. destruct Hf as ([[ds' name'] c'] & Heq & Hin').
    simpl in Heq. injection Heq as <- <- <-.
    exists n, es', ds'. auto.
  - intros (d & es' & ds' & -> & Hin & Hin').
    exists (d, Dir es'). split; [assumption |].
    unfold dir_entry. simpl fst. simpl snd.
    apply in_map_iff. exists (ds', name, c). auto.
Qed.

(** [files_under] lists the paths that lead to a regular file. *)
Lemma files_under_lookup n : forall ds name c,
  well_formed n = true ->
  (In (ds, name, c) (files_under n) <-> lookup (ds ++ [name]) n = Ok (File c)).
Proof.
  induction n as [c0 | | es IH] using node_induction; intros ds name c Hwf.
  - simpl. split; [tauto |]. destruct ds; discriminate.
  - simpl. split; [tauto |]. destruct ds; discriminate.
  - destruct (well_formed_dir _ Hwf) as [Hok Hch].
    rewrite files_under_dir, in_app_iff, in_file_entries, in_dir_entries.
    split.
    + intros [[-> Hin] | (d & es' & ds' & -> & Hin & Hin')].
      * simpl. now rewrite (find_in _ _ _ Hok Hin).
      * simpl. rewrite (find_in _ _ _ Hok Hin).
        rewrite Forall_forall in IH.
        apply (IH (d, Dir es') Hin); [eapply Hch; eassumption | assumption].
    + destruct ds as [| d ds']; simpl.
      * destruct (find name es) as [x |] eqn:F; [| discriminate].
        intros H. injection H as ->. left. split; [reflexivity |].
        now apply find_some_in.
      * destruct (find d es) as [x |] eqn:F; [| discriminate].
        intros H. right. apply find_some_in in F.
        destruct x as [? | | es'].
        -- destruct ds'; discriminate.
        -- destruct ds'; discriminate.
        -- exists d, es', ds'. repeat split; [assumption |].
           rewrite Forall_forall in IH.
           apply (IH (d, Dir es') F); [eapply Hch; eassumption | assumption].
Qed.





(** *** What stays as it is *)

(** Creating a file leaves every other file as it was. *)
Lemma create_preserves_file q c : forall p n n' c0,
  create q c n = Ok n' ->
  lookup p n = Ok (File c0) ->
  lookup p n' = Ok (File c0).
Proof.
  induction q as [| a q IH]; intros p n n' c0 H Hp; [discriminate |].
  destruct n as [? | | es0]; simpl in H; try discriminate.
  destruct p as [| a' p]; [discriminate |].
  simpl in Hp. destruct (find a' es0) as [ch |] eqn:F'; [| discriminate].
  destruct q as [| b q].
  - destruct (find a es0) eqn:F; [discriminate |].
    injection H as <-. simpl.
    now rewrite (find_app_some _ _ _ _ F').
  - destruct (find a es0) as [child |] eqn:F; [| discriminate].
    destruct (create (b :: q) c child) as [child' | e] eqn:Hc; [| discriminate].
    injection H as <-. simpl.
    destruct (String.eqb a a') eqn:E.
    + apply String.eqb_eq in E. subst a'.
      rewrite find_replace_same, F. rewrite F in F'. injection F' as ->.
      eapply IH; eassumption.
    + apply String.eqb_neq in E.
      now rewrite (find_replace_other _ _ _ _ E), F'.
Qed.

(** A non-directory on the way stops [mkdir_p]: with [FileExistsError]
    when it has the very name of the directory, with [NotADirectoryError]
    when it is above. *)
Lemma mkdir_p_blocked q : forall n x r,
  lookup q n = Ok x -> is_dir x = false ->
  mkdir_p (q ++ r) n
  = Err (match r with [] => FileExistsError | _ => NotADirectoryError end).
Proof.
  induction q as [| c q IH]; intros n x r H Hx.
  - simpl in H. injection H as ->.
    destruct x as [? | | es]; try discriminate; destruct r; reflexivity.
  - destruct n as [? | | es]; simpl in H; try discriminate.
    destruct (find c es) as [ch |] eqn:F; [| discriminate].
    simpl. rewrite F. now rewrite (IH _ _ r H Hx).
Qed.
End FsFacts.

(** ** The digest *)

Module Sha1Facts.
Import Sha1.

Lemma nibble_hex x : is_lower_hex (nibble x) = true.
Proof.
  unfold nibble.
  destruct (Z.land x 15) as [| p | p]; try reflexivity.
  do 5 (try (destruct p as [p | p |]; try reflexivity)).
Qed.

Lemma hexdigest_form content :
  exists a b c d e,
    hexdigest content = hex8 a (hex8 b (hex8 c (hex8 d (hex8 e "")))).
Proof.
  unfold hexdigest. destruct (digest_state content) as [a b c d e].
  now exists a, b, c, d, e.
Qed.

Lemma all_lower_hex_hex8 w tail :
  all_lower_hex (hex8 w tail) = all_lower_hex tail.
Proof.
  unfold all_lower_hex, hex8. cbn [list_ascii_of_string forallb].
  now rewrite !nibble_hex.
Qed.

(** The digest is forty lowercase hexadecimal characters. *)
Lemma hexdigest_lower_hex content : all_lower_hex (hexdigest content) = true.
Proof.
  destruct (hexdigest_form content) as (a & b & c & d & e & ->).
  now rewrite !all_lower_hex_hex8.
Qed.

Lemma hexdigest_length content : String.length (hexdigest content) = 40.
Proof.
  destruct (hexdigest_form content) as (a & b & c & d & e & ->).
  reflexivity.
Qed.

Lemma hexdigest_head content :
  exists d1 d2 d3 d4 d5 rest,
    hexdigest content
    = String d1 (String d2 (String d3 (String d4 (String d5 rest)))).
Proof.
  destruct (hexdigest_form content) as (a & b & c & d & e & ->).
  unfold hex8 at 1. repeat eexists.
Qed.

Lemma hex_not_slash c : is_lower_hex c = true -> PosixPath.is_slash c = false.
Proof.
  unfold is_lower_hex. simpl. intros H.
  repeat (apply orb_prop in H; destruct H as [H | H];
          [apply Ascii.eqb_eq in H; subst c; reflexivity |]).
  discriminate.
Qed.

Lemma lower_hex_no_slash s :
  all_lower_hex s = true -> PosixPath.has_slash s = false.
Proof.
  unfold all_lower_hex. induction s as [| c r IH]; simpl; [reflexivity |].
  intros H. apply andb_prop in H. destruct H as [Hc Hr].
  now rewrite (hex_not_slash _ Hc), (IH Hr).
Qed.

Lemma hex_char_is_name c :
  is_lower_hex c = true -> PosixPath.is_name (String c EmptyString) = true.
Proof.
  unfold is_lower_hex. simpl. intros H.
  repeat (apply orb_prop in H; destruct H as [H | H];
          [apply Ascii.eqb_eq in H; subst c; reflexivity |]).
  discriminate.
Qed.

Lemma hexdigest_is_name content : PosixPath.is_name (hexdigest content) = true.
Proof.
  pose proof (lower_hex_no_slash _ (hexdigest_lower_hex content)) as Hs.
  destruct (hexdigest_head content) as (d1 & d2 & d3 & d4 & d5 & rest & E).
  rewrite E in *. unfold PosixPath.is_name. rewrite Hs. simpl.
  destruct (Ascii.eqb d1 "."); simpl; [| reflexivity].
  destruct (Ascii.eqb d2 "."); reflexivity.
Qed.
End Sha1Facts.

(** ** Paths *)

Module PathFacts.
Import PosixPath.

Lemma string_app_assoc (a b c : string) :
  ((a ++ b) ++ c = a ++ (b ++ c))%string.
Proof. induction a as [| x a IH]; simpl; [reflexivity | now rewrite IH]. Qed.

Lemma string_app_nil_r (a : string) : (a ++ EmptyString = a)%string.
Proof. induction a as [| x a IH]; simpl; [reflexivity | now rewrite IH]. Qed.

Lemma split_nonempty s : split s <> [].
Proof.
  destruct s as [| c r]; simpl; [discriminate |].
  destruct (is_slash c); [discriminate |].
  destruct (split r); discriminate.
Qed.

Lemma split_app_slash a b :
  split (a ++ String slash b) = split a ++ split b.
Proof.
  induction a as [| c r IH]; simpl.
  - reflexivity.
  - destruct (is_slash c); rewrite IH; [reflexivity |].
    destruct (split r) as [| h t] eqn:E; [| reflexivity].
    exfalso. exact (split_nonempty _ E).
Qed.

Lemma split_no_slash s : has_slash s = false -> split s = [s].
Proof.
  induction s as [| c r IH]; simpl; [reflexivity |].
  destruct (is_slash c); simpl; [discriminate |].
  intros H. rewrite (IH H). reflexivity.
Qed.

Lemma split_parts_no_slash s : Forall (fun c => has_slash c = false) (split s).
Proof.
  induction s as [| c r IH]; simpl.
  - constructor; [reflexivity | constructor].
  - destruct (is_slash c) eqn:E.
    + constructor; [reflexivity | assumption].
    + destruct (split r) as [| h t]; [repeat constructor; simpl; now rewrite E |].
      inversion IH; subst. constructor; [simpl; now rewrite E | assumption].
Qed.

Lemma is_name_inv f :
  is_name f = true ->
  String.eqb f EmptyString = false /\ String.eqb f "." = false
  /\ String.eqb f dotdot = false /\ has_slash f = false.
Proof.
  unfold is_name. intros H.
  repeat (apply andb_prop in H; destruct H as [H ?]).
  repeat split; apply negb_true_iff; assumption.
Qed.

Lemma norm_step_name i acc f :
  is_name f = true -> norm_step i acc f = acc ++ [f].
Proof.
  intros H. destruct (is_name_inv _ H) as (H1 & H2 & H3 & _).
  unfold norm_step. rewrite H1, H2, H3. reflexivity.
Qed.

Lemma norm_step_empty i acc : norm_step i acc EmptyString = acc.
Proof. reflexivity. Qed.

Lemma norm_comps_app i l1 l2 :
  norm_comps i (l1 ++ l2) = fold_left (norm_step i) l2 (norm_comps i l1).
Proof. unfold norm_comps. apply fold_left_app. Qed.

Lemma fold_norm_step_names i l : forall acc,
  Forall (fun c => is_name c = true) l ->
  fold_left (norm_step i) l acc = acc ++ l.
Proof.
  induction l as [| c l IH]; intros acc H; simpl.
  - now rewrite app_nil_r.
  - inversion H; subst. rewrite norm_step_name by assumption.
    rewrite IH by assumption. now rewrite <- app_assoc.
Qed.

(** The initial-slash count only matters through being zero or not. *)
Lemma norm_step_absolute i acc c :
  i <> 0 -> norm_step i acc c = norm_step 1 acc c.
Proof.
  intros H. unfold norm_step. destruct i; [contradiction | reflexivity].
Qed.

Lemma norm_comps_absolute i l : i <> 0 -> norm_comps i l = norm_comps 1 l.
Proof.
  intros H. unfold norm_comps. generalize (@nil string).
  induction l as [| c l IH]; intros acc; simpl; [reflexivity |].
  rewrite (norm_step_absolute _ _ _ H). apply IH.
Qed.

Lemma startswith_slash_app p x :
  p <> EmptyString -> startswith_slash (p ++ x) = startswith_slash p.
Proof. destruct p; [contradiction | reflexivity]. Qed.

Lemma join_app cwd p x :
  p <> EmptyString -> join cwd (p ++ x) = (join cwd p ++ x)%string.
Proof.
  intros H. unfold join. rewrite (startswith_slash_app _ _ H).
  destruct (startswith_slash p); [reflexivity |].
  destruct (String.eqb cwd EmptyString || endswith_slash cwd)%bool;
    [| change (String slash (p ++ x)) with ((String slash p) ++ x)%string];
    now rewrite string_app_assoc.
Qed.

Lemma rooted_app cwd p x :
  p <> EmptyString -> rooted cwd (p ++ x) = (rooted cwd p ++ x)%string.
Proof.
  intros H. unfold rooted, isabs. rewrite (startswith_slash_app _ _ H).
  destruct (startswith_slash p); [reflexivity | now apply join_app].
Qed.

Lemma components_rooted cwd p :
  Fs.components cwd p = norm_comps 1 (split (rooted cwd p)).
Proof. reflexivity. Qed.

(** Resolving [p/f] is resolving [p] and then walking the pieces of [f]. *)
Lemma components_sep cwd p f :
  p <> EmptyString ->
  Fs.components cwd (FileDir.sep p f)
  = fold_left (norm_step 1) (split f) (Fs.components cwd p).
Proof.
  intros H. rewrite !components_rooted. unfold FileDir.sep.
  rewrite (rooted_app _ _ _ H), split_app_slash. apply norm_comps_app.
Qed.

Lemma components_sep_name cwd p f :
  p <> EmptyString -> is_name f = true ->
  Fs.components cwd (FileDir.sep p f) = Fs.components cwd p ++ [f].
Proof.
  intros H Hf. rewrite (components_sep _ _ _ H).
  destruct (is_name_inv _ Hf) as (_ & _ & _ & Hs).
  rewrite (split_no_slash _ Hs). simpl. now apply norm_step_name.
Qed.

Lemma has_slash_app_slash p f : has_slash (p ++ String slash f) = true.
Proof.
  induction p as [| c r IH]; simpl; [reflexivity |].
  rewrite IH. apply orb_true_r.
Qed.

Lemma basename_app_slash p f :
  has_slash f = false -> basename (p ++ String slash f) = f.
Proof.
  intros H. induction p as [| c r IH]; simpl.
  - now rewrite H.
  - now rewrite has_slash_app_slash.
Qed.

Lemma names_dir_sep p f : is_name f = true -> Fs.names_dir (FileDir.sep p f) = false.
Proof.
  intros H. destruct (is_name_inv _ H) as (H1 & H2 & H3 & H4).
  unfold Fs.names_dir, FileDir.sep. rewrite (basename_app_slash _ _ H4).
  now rewrite H1, H2, H3.
Qed.
Lemma normpath_nonempty p : normpath p <> EmptyString.
Proof.
  unfold normpath. destruct (String.eqb p EmptyString); [discriminate |].
  match goal with |- (if String.eqb ?x _ then _ else _) <> _ =>
    destruct (String.eqb x EmptyString) eqn:E end; [discriminate |].
  now apply String.eqb_neq.
Qed.

Lemma abspath_nonempty cwd p : abspath cwd p <> EmptyString.
Proof. apply normpath_nonempty. Qed.

Lemma rooted_isabs cwd p : isabs cwd = true -> isabs (rooted cwd p) = true.
Proof.
  intros H. unfold rooted. destruct (isabs p) eqn:E; [assumption |].
  unfold join. unfold isabs in E. rewrite E.
  destruct cwd as [| c r]; [discriminate |].
  destruct (String.eqb (String c r) EmptyString || endswith_slash (String c r))%bool;
    exact H.
Qed.

Lemma initial_slashes_isabs q : isabs q = true -> initial_slashes q <> 0.
Proof.
  destruct q as [| c1 [| c2 [| c3 r]]]; simpl; try discriminate;
    intros ->; try discriminate.
  - destruct (is_slash c2); discriminate.
  - destruct (is_slash c2 && negb (is_slash c3))%bool; discriminate.
Qed.

Lemma split_slashes i x : split (slashes i ++ x) = repeat EmptyString i ++ split x.
Proof. induction i as [| i IH]; simpl; [reflexivity | now rewrite IH]. Qed.

Lemma norm_comps_skip_empty i k l :
  norm_comps i (repeat EmptyString k ++ l) = norm_comps i l.
Proof. induction k as [| k IH]; simpl; [reflexivity | exact IH]. Qed.

Lemma Forall_removelast {A} (P : A -> Prop) l :
  Forall P l -> Forall P (removelast l).
Proof.
  induction l as [| a l IH]; intros H; simpl; [constructor |].
  inversion H; subst. destruct l; [constructor |].
  constructor; [assumption | now apply IH].
Qed.

Lemma is_name_intro c :
  String.eqb c EmptyString = false -> String.eqb c "." = false ->
  String.eqb c dotdot = false -> has_slash c = false -> is_name c = true.
Proof. intros H1 H2 H3 H4. unfold is_name. now rewrite H1, H2, H3, H4. Qed.

(** An absolute path normalises to plain names only. *)
Lemma norm_step_names i acc c :
  i <> 0 -> Forall (fun x => is_name x = true) acc -> has_slash c = false ->
  Forall (fun x => is_name x = true) (norm_step i acc c).
Proof.
  intros Hi Hacc Hc. unfold norm_step.
  destruct (String.eqb c EmptyString) eqn:E1; [assumption |].
  destruct (String.eqb c ".") eqn:E2; [assumption |]. simpl.
  destruct (String.eqb c dotdot) eqn:E3; simpl.
  - destruct i; [contradiction |]. simpl.
    destruct (rev acc) as [| last t] eqn:Er; [now apply Forall_removelast |].
    destruct (String.eqb last dotdot) eqn:E4; [| now apply Forall_removelast].
    exfalso. apply String.eqb_eq in E4. subst last.
    assert (Hin : In dotdot acc)
      by (apply in_rev; rewrite Er; now left).
    rewrite Forall_forall in Hacc. specialize (Hacc _ Hin). discriminate.
  - apply Forall_app. split; [assumption |].
    constructor; [now apply is_name_intro | constructor].
Qed.

Lemma norm_comps_names i l :
  i <> 0 -> Forall (fun c => has_slash c = false) l ->
  Forall (fun x => is_name x = true) (norm_comps i l).
Proof.
  intros Hi. unfold norm_comps.
  assert (G : forall acc, Forall (fun x => is_name x = true) acc ->
              Forall (fun c => has_slash c = false) l ->
              Forall (fun x => is_name x = true) (fold_left (norm_step i) l acc)).
  { induction l as [| c l IH]; intros acc Hacc Hl; simpl; [assumption |].
    inversion Hl; subst. apply IH; [| assumption].
    now apply norm_step_names. }
  apply G. constructor.
Qed.

Lemma norm_comps_of_names i l :
  Forall (fun x => is_name x = true) l -> norm_comps i l = l.
Proof. intros H. unfold norm_comps. now rewrite fold_norm_step_names. Qed.

Lemma split_join_slash cs :
  Forall (fun c => has_slash c = false) cs -> cs <> [] ->
  split (join_slash cs) = cs.
Proof.
  induction cs as [| c cs IH]; intros H Hne; [contradiction |].
  inversion H; subst. destruct cs as [| c' cs].
  - simpl. now apply split_no_slash.
  - change (join_slash (c :: c' :: cs))
      with (c ++ String slash (join_slash (c' :: cs)))%string.
    rewrite split_app_slash, split_no_slash by assumption.
    rewrite IH; [reflexivity | assumption | discriminate].
Qed.

Lemma names_no_slash cs :
  Forall (fun x => is_name x = true) cs ->
  Forall (fun c => has_slash c = false) cs.
Proof.
  apply Forall_impl. intros c H. now destruct (is_name_inv _ H) as (_ & _ & _ & ?).
Qed.

Lemma components_names cwd p :
  isabs cwd = true -> Forall (fun x => is_name x = true) (Fs.components cwd p).
Proof.
  intros H. rewrite components_rooted.
  apply norm_comps_names; [discriminate | apply split_parts_no_slash].
Qed.

(** [abspath] names the same place as the path it is given. *)
Lemma components_abspath cwd p :
  isabs cwd = true -> Fs.components cwd (abspath cwd p) = Fs.components cwd p.
Proof.
  intros Hcwd.
  pose proof (rooted_isabs cwd p Hcwd) as Habs.
  pose proof (initial_slashes_isabs _ Habs) as Hi.
  unfold abspath. set (q := rooted cwd p) in *.
  set (i := initial_slashes q) in *.
  assert (Hq : String.eqb q EmptyString = false)
    by (destruct q; [discriminate | reflexivity]).
  set (cs := norm_comps i (split q)).
  assert (Hcs : Forall (fun x => is_name x = true) cs)
    by (apply norm_comps_names; [assumption | apply split_parts_no_slash]).
  assert (Hn : normpath q = (slashes i ++ join_slash cs)%string).
  { unfold normpath. rewrite Hq. fold i. fold cs.
    destruct i as [| i']; [contradiction | reflexivity]. }
  rewrite Hn. rewrite components_rooted.
  assert (Hr : rooted cwd (slashes i ++ join_slash cs) = (slashes i ++ join_slash cs)%string).
  { unfold rooted. destruct i as [| i']; [contradiction | reflexivity]. }
  rewrite Hr, split_slashes, norm_comps_skip_empty.
  change (Fs.components cwd p) with (norm_comps 1 (split q)).
  rewrite <- (norm_comps_absolute i (split q) Hi). fold cs.
  destruct cs as [| c cs'] eqn:Ecs; [reflexivity |].
  rewrite split_join_slash; [| now apply names_no_slash | discriminate].
  now apply norm_comps_of_names.
Qed.
(** The shape of what [abspath] returns: the kept slashes, then the
    components joined. *)
Lemma abspath_form cwd p :
  isabs cwd = true ->
  exists i, i <> 0
    /\ abspath cwd p = (slashes i ++ join_slash (Fs.components cwd p))%string.
Proof.
  intros Hcwd.
  pose proof (rooted_isabs cwd p Hcwd) as Habs.
  pose proof (initial_slashes_isabs _ Habs) as Hi.
  exists (initial_slashes (rooted cwd p)). split; [assumption |].
  unfold abspath, normpath.
  assert (Hq : String.eqb (rooted cwd p) EmptyString = false)
    by (destruct (rooted cwd p); [discriminate | reflexivity]).
  rewrite Hq. rewrite components_rooted.
  rewrite (norm_comps_absolute _ (split (rooted cwd p)) Hi).
  destruct (initial_slashes (rooted cwd p)); [contradiction | reflexivity].
Qed.

Lemma join_slash_snoc cs f :
  cs <> [] ->
  join_slash (cs ++ [f]) = (join_slash cs ++ String slash f)%string.
Proof.
  induction cs as [| c cs IH]; intros H; [contradiction |].
  destruct cs as [| c' cs]; [reflexivity |].
  change (join_slash ((c :: c' :: cs) ++ [f]))
    with (c ++ String slash (join_slash ((c' :: cs) ++ [f])))%string.
  rewrite IH by discriminate.
  change (join_slash (c :: c' :: cs))
    with (c ++ String slash (join_slash (c' :: cs)))%string.
  now rewrite string_app_assoc.
Qed.

Lemma slashes_snoc i : slashes (S i) = (slashes i ++ String slash EmptyString)%string.
Proof. induction i as [| i IH]; [reflexivity |]. simpl in *. now rewrite <- IH. Qed.

(** A normalised path that has components ends in a plain name. *)
Lemma names_dir_abspath cwd p :
  isabs cwd = true -> Fs.components cwd p <> [] ->
  Fs.names_dir (abspath cwd p) = false.
Proof.
  intros Hcwd Hne.
  destruct (abspath_form cwd p Hcwd) as (i & Hi & ->).
  pose proof (components_names cwd p Hcwd) as Hn.
  destruct (exists_last Hne) as (cs & f & E). rewrite E in *.
  apply Forall_app in Hn. destruct Hn as [_ Hf].
  inversion Hf as [| ? ? Hname _]; subst.
  destruct (is_name_inv _ Hname) as (H1 & H2 & H3 & H4).
  assert (Hb : basename (slashes i ++ join_slash (cs ++ [f])) = f).
  { destruct cs as [| c cs].
    - destruct i as [| i]; [contradiction |].
      simpl app. change (join_slash [f]) with f.
      rewrite slashes_snoc, string_app_assoc. simpl.
      now apply basename_app_slash.
    - rewrite join_slash_snoc by discriminate.
      rewrite <- string_app_assoc. now apply basename_app_slash. }
  unfold Fs.names_dir. now rewrite Hb, H1, H2, H3.
Qed.

Lemma string_length_app a b :
  String.length (a ++ b) = String.length a + String.length b.
Proof. induction a as [| c a IH]; simpl; [reflexivity | now rewrite IH]. Qed.

Lemma sep_length a b :
  String.length (FileDir.sep a b) = String.length a + S (String.length b).
Proof. unfold FileDir.sep. now rewrite string_length_app. Qed.

Lemma initial_slashes_app q x :
  3 <= String.length q -> initial_slashes (q ++ x) = initial_slashes q.
Proof.
  destruct q as [| c1 [| c2 [| c3 r]]]; simpl; intros H; try lia;
    reflexivity.
Qed.

Lemma rooted_length cwd p : String.length p <= String.length (rooted cwd p).
Proof.
  unfold rooted, join. destruct (isabs p); [lia |].
  destruct (startswith_slash p); [lia |].
  destruct (String.eqb cwd EmptyString || endswith_slash cwd)%bool;
    rewrite string_length_app; simpl; lia.
Qed.

Lemma abspath_shape cwd p :
  isabs cwd = true ->
  abspath cwd p
  = (slashes (initial_slashes (rooted cwd p))
     ++ join_slash (Fs.components cwd p))%string.
Proof.
  intros Hcwd.
  pose proof (rooted_isabs cwd p Hcwd) as Habs.
  pose proof (initial_slashes_isabs _ Habs) as Hi.
  unfold abspath, normpath.
  assert (Hq : String.eqb (rooted cwd p) EmptyString = false)
    by (destruct (rooted cwd p); [discriminate | reflexivity]).
  rewrite Hq. rewrite components_rooted.
  rewrite (norm_comps_absolute _ (split (rooted cwd p)) Hi).
  destruct (initial_slashes (rooted cwd p)); [contradiction | reflexivity].
Qed.

(** [abspath] of a path extended by a plain name is the extension of the
    [abspath]. *)
Lemma abspath_sep_name cwd p f :
  isabs cwd = true -> 3 <= String.length p -> is_name f = true ->
  Fs.components cwd p <> [] ->
  abspath cwd (FileDir.sep p f) = FileDir.sep (abspath cwd p) f.
Proof.
  intros Hcwd Hlen Hf Hne.
  assert (Hp : p <> EmptyString) by (destruct p; [simpl in Hlen; lia | discriminate]).
  rewrite !abspath_shape by assumption.
  rewrite (components_sep_name _ _ _ Hp Hf), (join_slash_snoc _ _ Hne).
  unfold FileDir.sep at 1. rewrite (rooted_app _ _ _ Hp).
  rewrite initial_slashes_app by (pose proof (rooted_length cwd p); lia).
  unfold FileDir.sep. now rewrite string_app_assoc.
Qed.

Lemma sep_assoc a b c :
  FileDir.sep a (b ++ String slash c) = FileDir.sep (FileDir.sep a b) c.
Proof. unfold FileDir.sep. now rewrite string_app_assoc. Qed.

(** *** Joining a directory and a name *)

Lemma is_name_no_leading_slash f : is_name f = true -> startswith_slash f = false.
Proof.
  intros H. destruct (is_name_inv _ H) as (_ & _ & _ & Hs).
  destruct f as [| c r]; [reflexivity |]. simpl in *.
  now apply orb_false_elim in Hs.
Qed.

Lemma endswith_slash_inv s :
  endswith_slash s = true -> exists s', s = (s' ++ String slash EmptyString)%string.
Proof.
  induction s as [| c r IH]; [discriminate |].
  destruct r as [| c' r'].
  - simpl. intros H. apply Ascii.eqb_eq in H. subst c. now exists EmptyString.
  - intros H. change (endswith_slash (String c' r') = true) in H.
    destruct (IH H) as [s' Hs']. exists (String c s'). simpl. now rewrite <- Hs'.
Qed.

(** [join] puts exactly one slash between a directory and a name, unless
    the directory already ends in one. *)
Lemma join_name src name :
  src <> EmptyString -> is_name name = true ->
  exists pre, join src name = FileDir.sep pre name
              /\ (src = pre \/ src = (pre ++ String slash EmptyString)%string).
Proof.
  intros Hsrc Hname. unfold join.
  rewrite (is_name_no_leading_slash _ Hname).
  assert (Hne : String.eqb src EmptyString = false)
    by (destruct src; [contradiction | reflexivity]).
  rewrite Hne. simpl. destruct (endswith_slash src) eqn:E.
  - destruct (endswith_slash_inv _ E) as [pre ->]. exists pre.
    split; [| now right]. unfold FileDir.sep. now rewrite string_app_assoc.
  - exists src. split; [reflexivity | now left].
Qed.

Lemma components_trailing_slash cwd p :
  p <> EmptyString ->
  Fs.components cwd (p ++ String slash EmptyString) = Fs.components cwd p.
Proof.
  intros H. change (p ++ String slash EmptyString)%string with (FileDir.sep p EmptyString).
  now rewrite components_sep.
Qed.




Lemma basename_join_name src name :
  src <> EmptyString -> is_name name = true -> basename (join src name) = name.
Proof.
  intros Hsrc Hname.
  destruct (join_name src name Hsrc Hname) as (pre & -> & _).
  destruct (is_name_inv _ Hname) as (_ & _ & _ & Hs).
  now apply basename_app_slash.
Qed.

Lemma names_dir_join_name src name :
  src <> EmptyString -> is_name name = true ->
  Fs.names_dir (join src name) = false.
Proof.
  intros Hsrc Hname.
  destruct (join_name src name Hsrc Hname) as (pre & -> & _).
  now apply names_dir_sep.
Qed.

Lemma join_nonempty src name : src <> EmptyString -> join src name <> EmptyString.
Proof.
  intros H. unfold join. destruct src as [| c r]; [contradiction |].
  destruct (startswith_slash name) eqn:E.
  - destruct name; [discriminate | discriminate].
  - destruct (String.eqb (String c r) EmptyString || endswith_slash (String c r))%bool;
      discriminate.
Qed.

(** *** The directory part of a joined path *)

Lemma head_part_app_slash p f :
  has_slash f = false ->
  head_part (p ++ String slash f) = (p ++ String slash EmptyString)%string.
Proof.
  intros H. induction p as [| c r IH]; simpl.
  - now rewrite H.
  - now rewrite has_slash_app_slash, IH.
Qed.

Lemma rstrip_slash_decomp s :
  exists k, s = (rstrip_slash s ++ slashes k)%string.
Proof.
  induction s as [| c r [k IH]]; [now exists 0 |].
  simpl. destruct (rstrip_slash r) as [| c' r'] eqn:E.
  - destruct (is_slash c) eqn:Ec.
    + apply Ascii.eqb_eq in Ec. subst c. exists (S k). simpl. now rewrite IH at 1.
    + exists k. simpl. now rewrite IH at 1.
  - exists k. simpl. now rewrite IH at 1.
Qed.

Lemma all_slashes_slashes k : all_slashes (slashes k) = true.
Proof. induction k as [| k IH]; [reflexivity | exact IH]. Qed.

Lemma components_app_slashes cwd k : forall r,
  r <> EmptyString ->
  Fs.components cwd (r ++ slashes k) = Fs.components cwd r.
Proof.
  induction k as [| k IH]; intros r Hr; simpl.
  - now rewrite string_app_nil_r.
  - change (String slash (slashes k)) with (String slash EmptyString ++ slashes k)%string.
    rewrite <- string_app_assoc, IH.
    + now apply components_trailing_slash.
    + destruct r; discriminate.
Qed.

Lemma components_rstrip cwd s :
  all_slashes s = false ->
  Fs.components cwd (rstrip_slash s) = Fs.components cwd s.
Proof.
  intros H. destruct (rstrip_slash_decomp s) as [k Hk].
  assert (Hne : rstrip_slash s <> EmptyString).
  { intros E. rewrite E in Hk. simpl in Hk. rewrite Hk in H.
    now rewrite all_slashes_slashes in H. }
  rewrite Hk at 2. symmetry. now apply components_app_slashes.
Qed.

(** The [dirname] of a file's path names the directory the file is in. *)
Lemma components_dirname_join cwd dir name :
  dir <> EmptyString -> is_name name = true ->
  Fs.components cwd (dirname (join dir name)) = Fs.components cwd dir.
Proof.
  intros Hdir Hname.
  destruct (is_name_inv _ Hname) as (_ & _ & _ & Hs).
  destruct (join_name dir name Hdir Hname) as (pre & -> & Hpre).
  unfold dirname, FileDir.sep. rewrite (head_part_app_slash _ _ Hs).
  set (head := (pre ++ String slash EmptyString)%string).
  assert (Hhead : Fs.components cwd head = Fs.components cwd dir).
  { destruct Hpre as [-> | ->]; [| reflexivity].
    now apply components_trailing_slash. }
  assert (Hne : String.eqb head EmptyString = false)
    by (unfold head; destruct pre; reflexivity).
  rewrite Hne. simpl negb. destruct (all_slashes head) eqn:A; simpl.
  - exact Hhead.
  - now rewrite components_rstrip.
Qed.


(** *** Absolute paths and the working directory *)

Lemma rooted_of_absolute cwd p : isabs p = true -> rooted cwd p = p.
Proof. unfold rooted. now intros ->. Qed.

Lemma normpath_isabs q : isabs q = true -> isabs (normpath q) = true.
Proof.
  intros H. pose proof (initial_slashes_isabs _ H) as Hi.
  assert (Hq : String.eqb q EmptyString = false)
    by (destruct q; [discriminate | reflexivity]).
  unfold normpath. rewrite Hq.
  destruct (initial_slashes q) as [| i]; [contradiction | reflexivity].
Qed.

Lemma abspath_isabs cwd p : isabs cwd = true -> isabs (abspath cwd p) = true.
Proof. intros H. apply normpath_isabs. now apply rooted_isabs. Qed.

Lemma sep_isabs p f : isabs p = true -> isabs (FileDir.sep p f) = true.
Proof. destruct p; [discriminate | now intros H]. Qed.

(** An absolute path means the same under every working directory. *)
Lemma components_of_absolute cwd cwd' p :
  isabs p = true -> Fs.components cwd' p = Fs.components cwd p.
Proof.
  intros H. rewrite !components_rooted. now rewrite !rooted_of_absolute.
Qed.

Lemma abspath_of_absolute cwd cwd' p :
  isabs p = true -> abspath cwd' p = abspath cwd p.
Proof. intros H. unfold abspath. now rewrite !rooted_of_absolute. Qed.

(** *** Resolution by the system *)






Lemma resolve_from_app root l1 l2 : forall acc,
  Fs.resolve_from root acc (l1 ++ l2)
  = match Fs.resolve_from root acc l1 with
    | Fs.Ok a => Fs.resolve_from root a l2
    | Fs.Err err => Fs.Err err
    end.
Proof.
  induction l1 as [| c l1 IH]; intros acc; simpl; [reflexivity |].
  destruct (String.eqb c EmptyString || String.eqb c ".")%bool; [apply IH |].
  destruct (String.eqb c dotdot); [| apply IH].
  destruct (Fs.lookup acc root) as [[? | | es] | err]; try reflexivity.
  apply IH.
Qed.

Lemma resolve_sep cwd p f root :
  p <> EmptyString ->
  Fs.resolve cwd (FileDir.sep p f) root
  = match Fs.resolve cwd p root with
    | Fs.Ok a => Fs.resolve_from root a (split f)
    | Fs.Err err => Fs.Err err
    end.
Proof.
  intros H. unfold Fs.resolve, FileDir.sep.
  rewrite (rooted_app _ _ _ H), split_app_slash. apply resolve_from_app.
Qed.

Lemma resolve_from_name root acc f :
  is_name f = true -> Fs.resolve_from root acc (split f) = Fs.Ok (acc ++ [f]).
Proof.
  intros H. destruct (is_name_inv _ H) as (H1 & H2 & H3 & H4).
  rewrite (split_no_slash _ H4). simpl. now rewrite H1, H2, H3.
Qed.

Lemma resolve_trailing_slash cwd p root :
  p <> EmptyString ->
  Fs.resolve cwd (p ++ String slash EmptyString) root = Fs.resolve cwd p root.
Proof.
  intros H.
  change (p ++ String slash EmptyString)%string with (FileDir.sep p EmptyString).
  rewrite (resolve_sep _ _ _ _ H). simpl.
  now destruct (Fs.resolve cwd p root).
Qed.

Lemma resolve_slash_name cwd f root :
  is_name f = true -> Fs.resolve cwd (String slash f) root = Fs.Ok [f].
Proof.
  intros H. unfold Fs.resolve, rooted. simpl.
  now rewrite (resolve_from_name root [] f H).
Qed.

Lemma resolve_slash cwd root :
  Fs.resolve cwd (String slash EmptyString) root = Fs.Ok [].
Proof. reflexivity. Qed.

(** A name joined to a directory is looked up in that directory. *)
Lemma resolve_join_name cwd src name root cs :
  src <> EmptyString -> is_name name = true ->
  Fs.resolve cwd src root = Fs.Ok cs ->
  Fs.resolve cwd (join src name) root = Fs.Ok (cs ++ [name]).
Proof.
  intros Hsrc Hname Hcs.
  destruct (join_name src name Hsrc Hname) as (pre & -> & [-> | ->]).
  - rewrite (resolve_sep _ _ _ _ Hsrc), Hcs. now apply resolve_from_name.
  - destruct pre as [| c r].
    + change (FileDir.sep EmptyString name) with (String slash name).
      rewrite resolve_slash in Hcs. injection Hcs as <-.
      now apply resolve_slash_name.
    + rewrite resolve_trailing_slash in Hcs by discriminate.
      rewrite resolve_sep by discriminate. rewrite Hcs.
      now apply resolve_from_name.
Qed.

Lemma stat_inv cwd p root x :
  Fs.stat cwd p root = Fs.Ok x ->
  p <> EmptyString
  /\ exists cs, Fs.resolve cwd p root = Fs.Ok cs /\ Fs.lookup cs root = Fs.Ok x.
Proof.
  unfold Fs.stat. destruct p as [| c r]; [discriminate |]. simpl String.eqb. cbv iota.
  destruct (Fs.resolve cwd (String c r) root) as [cs | err]; [| discriminate].
  intros H. split; [discriminate |]. exists cs. split; [reflexivity |].
  destruct (Fs.lookup cs root) as [[? | | es] | err]; try discriminate;
    try assumption;
    destruct (Fs.names_dir (String c r)); try discriminate; assumption.
Qed.

Lemma stat_intro cwd p root cs :
  p <> EmptyString -> Fs.names_dir p = false ->
  Fs.resolve cwd p root = Fs.Ok cs ->
  Fs.stat cwd p root = Fs.lookup cs root.
Proof.
  intros Hp Hn H. unfold Fs.stat. rewrite H, Hn.
  destruct p; [contradiction |]. simpl String.eqb. cbv iota.
  now destruct (Fs.lookup cs root) as [[? | | es] | err].
Qed.



Lemma stat_join_name cwd src name root es :
  is_name name = true ->
  Fs.stat cwd src root = Fs.Ok (Fs.Dir es) ->
  Fs.stat cwd (join src name) root
  = match Fs.find name es with
    | Some x => Fs.Ok x
    | None => Fs.Err Fs.FileNotFoundError
    end.
Proof.
  intros Hname H. destruct (stat_inv _ _ _ _ H) as (Hsrc & cs & Hr & Hl).
  rewrite (stat_intro _ _ _ (cs ++ [name]));
    [| now apply join_nonempty | now apply names_dir_join_name
     | now apply resolve_join_name].
  now apply FsFacts.lookup_in_dir.
Qed.






End PathFacts.

(** ** The plugin *)

Module FileDirFacts.
Import Fs FileDir FsFacts PathFacts.
Import PosixPath.

Lemma set_fs_same w : set_fs w (fs w) = w.
Proof. destruct w; reflexivity. Qed.

Lemma lift_fs_ok f w fs' : f (fs w) = Ok fs' -> lift_fs f w = (Ok tt, set_fs w fs').
Proof. unfold lift_fs. now intros ->. Qed.

Lemma lift_fs_err f w err : f (fs w) = Err err -> lift_fs f w = (Err err, w).
Proof. unfold lift_fs. now intros ->. Qed.

Lemma lift_fs_inv f w w1 :
  lift_fs f w = (Ok tt, w1) -> exists fs', f (fs w) = Ok fs' /\ w1 = set_fs w fs'.
Proof.
  unfold lift_fs. destruct (f (fs w)) as [fs' | err]; intros H; [| discriminate].
  injection H as <-. eauto.
Qed.

Lemma open_x_inv cwd p c root root' :
  open_x cwd p c root = Ok root' ->
  names_dir p = false /\ create (components cwd p) c root = Ok root'.
Proof. unfold open_x. destruct (names_dir p); [discriminate | auto]. Qed.

Lemma save_run self e r w :
  save self e r w
  = match mkdir_parents (getcwd e) (save_dir self e) (fs w) with
    | Ok fs1 =>
        match open_x (getcwd e) (sep (save_dir self e) (scan_id r))
                (saved_bytes self e r) fs1 with
        | Ok fs2 => (Ok tt, set_fs w fs2)
        | Err err => (Err err, set_fs w fs1)
        end
    | Err err => (Err err, w)
    end.
Proof.
  unfold save, bind, lift_fs, saved_bytes.
  destruct (mkdir_parents _ _ _) as [fs1 | err]; [| reflexivity]. simpl.
  destruct (open_x _ _ _ fs1); reflexivity.
Qed.

Lemma save_inv self e r w w1 :
  save self e r w = (Ok tt, w1) ->
  exists fs1 fs2,
    mkdir_parents (getcwd e) (save_dir self e) (fs w) = Ok fs1
    /\ open_x (getcwd e) (sep (save_dir self e) (scan_id r))
         (saved_bytes self e r) fs1 = Ok fs2
    /\ w1 = set_fs w fs2.
Proof.
  rewrite save_run.
  destruct (mkdir_parents _ _ _) as [fs1 | err]; [| discriminate].
  destruct (open_x _ _ _ fs1) as [fs2 | err] eqn:Ho; [| discriminate].
  intros H. injection H as <-. eauto.
Qed.

(** Once a response is saved, saving under the same name is refused and
    nothing changes. *)
Lemma save_again_refused self e e' r r' w w1 :
  getcwd e' = getcwd e ->
  save_dir self e' = save_dir self e ->
  scan_id r' = scan_id r ->
  save self e r w = (Ok tt, w1) ->
  save self e' r' w1 = (Err FileExistsError, w1)
  /\ read_file (getcwd e) (sep (save_dir self e) (scan_id r)) (fs w1)
     = Ok (saved_bytes self e r).
Proof.
  intros Hcwd Hdir Hid H.
  destruct (save_inv _ _ _ _ _ H) as (fs1 & fs2 & Hm & Ho & ->).
  destruct (open_x_inv _ _ _ _ _ Ho) as [Hnd Hc].
  destruct (mkdir_p_lookup _ _ _ Hm) as [es Hes].
  destruct (create_preserves_dir _ _ _ _ _ _ Hc Hes) as [es' Hes'].
  split.
  - rewrite save_run, Hcwd, Hdir, Hid. simpl fs.
    unfold mkdir_parents. rewrite (mkdir_p_id _ _ _ Hes').
    unfold open_x. rewrite Hnd.
    rewrite (create_again _ _ _ _ _ Hc). reflexivity.
  - unfold read_file. simpl fs. rewrite (create_lookup _ _ _ _ Hc), Hnd.
    reflexivity.
Qed.

(** [save] succeeds when the directory can be made and the name is free. *)
Lemma save_succeeds self e r w :
  isabs (getcwd e) = true ->
  is_name (scan_id r) = true ->
  is_ok (mkdir_parents (getcwd e) (save_dir self e) (fs w)) = true ->
  path_exists (getcwd e) (sep (save_dir self e) (scan_id r)) (fs w) = false ->
  exists w1, save self e r w = (Ok tt, w1).
Proof.
  intros Hcwd Hname Hm Hfree. rewrite save_run.
  unfold mkdir_parents in *.
  destruct (mkdir_p _ (fs w)) as [fs1 | err] eqn:Hmk; [| discriminate].
  unfold path_exists in Hfree. unfold open_x.
  rewrite (names_dir_sep _ _ Hname).
  unfold save_dir in *.
  rewrite components_sep_name in * by (auto using abspath_nonempty).
  destruct (mkdir_p_keeps_free _ (scan_id r) _ _ Hmk) as (es & Hes & Hf).
  { intros x Hx. rewrite Hx in Hfree. discriminate. }
  destruct (create_in_dir _ _ (saved_bytes self e r) _ _ Hes Hf) as [fs2 Hc].
  rewrite Hc. eauto.
Qed.

(** C4. Write-once results: when [save] stores a response under a free
    name, it succeeds, and a second [save] with the same scan identifier
    in the same directory fails with [FileExistsError], writes nothing
    and leaves the first file as it was. *)
Theorem save_write_once self e e' r r' w :
  isabs (getcwd e) = true ->
  getcwd e' = getcwd e ->
  save_dir self e' = save_dir self e ->
  scan_id r' = scan_id r ->
  is_name (scan_id r) = true ->
  is_ok (mkdir_parents (getcwd e) (save_dir self e) (fs w)) = true ->
  path_exists (getcwd e) (sep (save_dir self e) (scan_id r)) (fs w) = false ->
  exists w1,
    save self e r w = (Ok tt, w1)
    /\ save self e' r' w1 = (Err FileExistsError, w1)
    /\ read_file (getcwd e) (sep (save_dir self e) (scan_id r)) (fs w1)
       = Ok (saved_bytes self e r).
Proof.
  intros Hcwd Hc' Hdir Hid Hname Hm Hfree.
  destruct (save_succeeds self e r w Hcwd Hname Hm Hfree) as [w1 H1].
  exists w1. split; [assumption |].
  now apply (save_again_refused self e e' r r' w w1).
Qed.

Lemma save_write_once_witness :
  isabs (getcwd Samples.host) = true
  /\ is_name (scan_id Samples.response) = true
  /\ is_ok (mkdir_parents (getcwd Samples.host)
              (save_dir Samples.defaults Samples.host) (fs Samples.start)) = true
  /\ path_exists (getcwd Samples.host)
       (sep (save_dir Samples.defaults Samples.host) (scan_id Samples.response))
       (fs Samples.start) = false
  /\ exists w1,
       save Samples.defaults Samples.host Samples.response Samples.start
       = (Ok tt, w1)
       /\ save Samples.defaults Samples.host Samples.response' w1
          = (Err FileExistsError, w1)
       /\ read_file (getcwd Samples.host)
            (sep (save_dir Samples.defaults Samples.host)
                 (scan_id Samples.response)) (fs w1)
          = Ok (saved_bytes Samples.defaults Samples.host Samples.response).
Proof.
  do 4 (split; [vm_compute; reflexivity |]).
  apply (save_write_once Samples.defaults Samples.host Samples.host
           Samples.response Samples.response' Samples.start);
    vm_compute; reflexivity.
Defined.



Lemma sep_nonempty a b : sep a b <> EmptyString.
Proof. unfold sep. destruct a; discriminate. Qed.

Lemma save_dir_raw_components self e :
  isabs (getcwd e) = true ->
  components (getcwd e) (save_dir self e)
  = components (getcwd e) (save_dir_raw self e).
Proof. intros H. now apply components_abspath. Qed.





(** C8. Without a source directory [ingest] raises the plugin's
    exception and puts nothing on the queue. *)
Theorem ingest_requires_source_dir self e w :
  source_dir self = None \/ source_dir self = Some EmptyString ->
  ingest self e w = (Err StoqPluginException, w).
Proof. unfold ingest. intros [-> | ->]; reflexivity. Qed.

Lemma ingest_requires_source_dir_witness :
  (source_dir Samples.by_id = None
   \/ source_dir Samples.by_id = Some EmptyString)
  /\ ingest Samples.by_id Samples.host Samples.start
     = (Err StoqPluginException, Samples.start).
Proof.
  split; [now left |].
  apply (ingest_requires_source_dir Samples.by_id Samples.host Samples.start).
  now left.
Defined.

(** C9. A source directory that names neither a directory nor a regular
    file makes [ingest] return normally with nothing queued. *)
Theorem ingest_missing_path_noop self e w src :
  source_dir self = Some src ->
  src <> EmptyString ->
  isdir (getcwd e) src (fs w) = false ->
  isfile (getcwd e) src (fs w) = false ->
  ingest self e w = (Ok tt, w).
Proof.
  intros Hs Hne Hd Hf. unfold ingest. rewrite Hs.
  destruct src as [| c src']; [contradiction |].
  unfold bind, get_fs. rewrite Hd, Hf. reflexivity.
Qed.

Lemma ingest_missing_path_noop_witness :
  source_dir Samples.nowhere = Some "/nowhere"
  /\ "/nowhere" <> EmptyString
  /\ isdir (getcwd Samples.host) "/nowhere" (fs Samples.start) = false
  /\ isfile (getcwd Samples.host) "/nowhere" (fs Samples.start) = false
  /\ ingest Samples.nowhere Samples.host Samples.start = (Ok tt, Samples.start).
Proof.
  split; [reflexivity |]. split; [discriminate |].
  do 2 (split; [reflexivity |]).
  apply (ingest_missing_path_noop Samples.nowhere Samples.host Samples.start
           "/nowhere");
    [reflexivity | discriminate | reflexivity | reflexivity].
Defined.

(** *** The archiver *)

Lemma archive_run self e p req w :
  archive self e p req w
  = let '(f, d) := archive_location self e p in
    match mkdir_parents (getcwd e) d (fs w) with
    | Ok fs1 =>
        match open_x (getcwd e) (sep d f) (content p) fs1 with
        | Ok fs2 => (Ok (locator d f), set_fs w fs2)
        | Err err =>
            if error_eqb FileExistsError err
            then (Ok (locator d f), set_fs w fs1)
            else (Err err, set_fs w fs1)
        end
    | Err err => (Err err, w)
    end.
Proof.
  unfold archive. destruct (archive_location self e p) as [f d].
  unfold bind, except_pass, lift_fs, ret.
  destruct (mkdir_parents _ _ _) as [fs1 | err]; [| reflexivity]. simpl.
  destruct (open_x _ _ _ fs1) as [fs2 | err]; [reflexivity |].
  destruct err; reflexivity.
Qed.

(** The file name [archive] uses is a plain name: always so for a
    digest, and otherwise when the host's identifier is one. *)
Lemma archive_filename_is_name self e p :
  use_sha self = true \/ is_name (payload_id (results p)) = true ->
  is_name (fst (archive_location self e p)) = true.
Proof.
  unfold archive_location. intros [H | H].
  - rewrite H. apply Sha1Facts.hexdigest_is_name.
  - destruct (use_sha self); [apply Sha1Facts.hexdigest_is_name |].
    destruct (date_mode self); exact H.
Qed.

Lemma archive_location_dir_abspath self e p :
  exists raw, snd (archive_location self e p) = abspath (getcwd e) raw.
Proof.
  unfold archive_location.
  destruct (use_sha self); [| destruct (date_mode self)]; eexists; reflexivity.
Qed.

Lemma archive_target_components self e p :
  isabs (getcwd e) = true ->
  is_name (fst (archive_location self e p)) = true ->
  components (getcwd e)
    (sep (snd (archive_location self e p)) (fst (archive_location self e p)))
  = components (getcwd e) (snd (archive_location self e p))
      ++ [fst (archive_location self e p)].
Proof.
  intros Hcwd Hname. apply components_sep_name; [| assumption].
  destruct (archive_location_dir_abspath self e p) as [raw ->].
  apply abspath_nonempty.
Qed.

Lemma path_exists_inv cwd p root :
  path_exists cwd p root = true -> exists x, lookup (components cwd p) root = Ok x.
Proof.
  unfold path_exists. destruct (lookup _ _) as [x |]; [eauto | discriminate].
Qed.

(** When something already has the name, [archive] returns the locator
    and touches nothing. *)
Lemma archive_existing self e p req w :
  isabs (getcwd e) = true ->
  is_name (fst (archive_location self e p)) = true ->
  path_exists (getcwd e)
    (sep (snd (archive_location self e p)) (fst (archive_location self e p)))
    (fs w) = true ->
  archive self e p req w
  = (Ok (locator (snd (archive_location self e p))
                 (fst (archive_location self e p))), w).
Proof.
  intros Hcwd Hname Hex. rewrite archive_run.
  pose proof (archive_target_components self e p Hcwd Hname) as Hcomp.
  destruct (archive_location self e p) as [f d]. simpl in *.
  destruct (path_exists_inv _ _ _ Hex) as [x Hx]. rewrite Hcomp in Hx.
  destruct (lookup_prefix_dir _ _ _ _ _ Hx) as [es Hes].
  unfold mkdir_parents. rewrite (mkdir_p_id _ _ _ Hes).
  unfold open_x. rewrite (names_dir_sep _ _ Hname), Hcomp.
  rewrite (create_exists _ _ _ x); [| destruct (components _ d); discriminate | assumption].
  simpl. now rewrite set_fs_same.
Qed.

(** What a normal return of [archive] tells: the locator, and that the
    name is taken afterwards; the payload's bytes are there when the name
    was free before. *)
Lemma archive_ok self e p req w r1 w1 :
  isabs (getcwd e) = true ->
  is_name (fst (archive_location self e p)) = true ->
  archive self e p req w = (Ok r1, w1) ->
  r1 = locator (snd (archive_location self e p)) (fst (archive_location self e p))
  /\ path_exists (getcwd e)
       (sep (snd (archive_location self e p)) (fst (archive_location self e p)))
       (fs w1) = true
  /\ queue w1 = queue w /\ drawn w1 = drawn w
  /\ (path_exists (getcwd e)
        (sep (snd (archive_location self e p)) (fst (archive_location self e p)))
        (fs w) = false ->
      read_file (getcwd e)
        (sep (snd (archive_location self e p)) (fst (archive_location self e p)))
        (fs w1) = Ok (content p)).
Proof.
  intros Hcwd Hname. rewrite archive_run.
  pose proof (archive_target_components self e p Hcwd Hname) as Hcomp.
  destruct (archive_location self e p) as [f d]. simpl in *.
  unfold mkdir_parents.
  destruct (mkdir_p (components (getcwd e) d) (fs w)) as [fs1 | err] eqn:Hm;
    [| discriminate].
  destruct (mkdir_p_lookup _ _ _ Hm) as [es Hes].
  unfold open_x. rewrite (names_dir_sep _ _ Hname), Hcomp.
  unfold path_exists, read_file. rewrite Hcomp, (names_dir_sep _ _ Hname).
  destruct (create_in_dir_outcome _ f (content p) _ _ Hes)
    as [[fs2 Hc] | [Hc [x Hx]]]; rewrite Hc.
  - intros H. injection H as <- <-. simpl.
    rewrite (create_lookup _ _ _ _ Hc). auto.
  - simpl. intros H. injection H as <- <-. simpl. rewrite Hx.
    repeat split; try reflexivity.
    intros Hfree. exfalso.
    destruct (mkdir_p_keeps_free _ f _ _ Hm) as (es' & Hes' & Hf).
    { intros y Hy. rewrite Hy in Hfree. discriminate. }
    rewrite (lookup_in_dir _ _ _ _ Hes'), Hf in Hx. discriminate.
Qed.

(** [archive] returns normally when its directory can be made. *)
Lemma archive_succeeds self e p req w :
  isabs (getcwd e) = true ->
  is_name (fst (archive_location self e p)) = true ->
  is_ok (mkdir_parents (getcwd e) (snd (archive_location self e p)) (fs w)) = true ->
  exists w1,
    archive self e p req w
    = (Ok (locator (snd (archive_location self e p))
                   (fst (archive_location self e p))), w1).
Proof.
  intros Hcwd Hname. rewrite archive_run.
  pose proof (archive_target_components self e p Hcwd Hname) as Hcomp.
  destruct (archive_location self e p) as [f d]. simpl in *.
  unfold mkdir_parents.
  destruct (mkdir_p (components (getcwd e) d) (fs w)) as [fs1 | err] eqn:Hm;
    [| discriminate].
  intros _. destruct (mkdir_p_lookup _ _ _ Hm) as [es Hes].
  unfold open_x. rewrite (names_dir_sep _ _ Hname), Hcomp.
  destruct (create_in_dir_outcome _ f (content p) _ _ Hes)
    as [[fs2 Hc] | [Hc _]]; rewrite Hc; simpl; eauto.
Qed.

Lemma dict_get_path v : dict_get "path" [("path", v)] = Some v.
Proof. reflexivity. Qed.

(** Retrieval through a locator of [archive] reads the file the locator
    names. *)
Lemma get_locator self e d f w :
  isabs (getcwd e) = true ->
  is_name f = true ->
  d <> EmptyString ->
  get self e (locator d f) w
  = match read_file (getcwd e) (sep d f) (fs w) with
    | Ok c =>
        (Ok {| content := c;
               payload_meta := {| extra_data := archiver_results (locator d f) |};
               results := {| payload_id := uuid4 e (drawn w) |} |},
         {| fs := fs w; queue := queue w; drawn := S (drawn w) |})
    | Err err => (Err err, w)
    end.
Proof.
  intros Hcwd Hname Hd. unfold get.
  change (archiver_results (locator d f)) with [("path", sep d f)].
  rewrite dict_get_path. unfold bind, lift_read, new_Payload.
  assert (Hr : read_file (getcwd e) (abspath (getcwd e) (sep d f)) (fs w)
               = read_file (getcwd e) (sep d f) (fs w)).
  { unfold read_file. rewrite components_abspath by assumption.
    rewrite names_dir_abspath, (names_dir_sep _ _ Hname);
      [reflexivity | assumption |].
    rewrite components_sep_name by assumption.
    destruct (components (getcwd e) d); discriminate. }
  rewrite Hr. destruct (read_file _ _ _); reflexivity.
Qed.

Lemma read_file_exists cwd p root c :
  read_file cwd p root = Ok c -> path_exists cwd p root = true.
Proof.
  unfold read_file, path_exists.
  destruct (lookup _ _) as [x |]; [reflexivity | discriminate].
Qed.

Lemma archive_location_sha self e e' p p' :
  use_sha self = true -> getcwd e' = getcwd e -> content p' = content p ->
  archive_location self e' p' = archive_location self e p.
Proof.
  intros Hs Hc Hp. unfold archive_location. now rewrite Hs, Hc, Hp.
Qed.

Lemma archive_location_id self e e' p p' :
  use_sha self = false -> getcwd e' = getcwd e ->
  (date_mode self = true ->
   now_strftime e' (date_format self) = now_strftime e (date_format self)) ->
  payload_id (results p') = payload_id (results p) ->
  archive_location self e' p' = archive_location self e p.
Proof.
  intros Hs Hc Hd Hp. unfold archive_location. rewrite Hs, Hc, Hp.
  destruct (date_mode self); [now rewrite Hd | reflexivity].
Qed.

(** C2. In digest mode, archiving the same bytes again returns the same
    locator, raises nothing and leaves the world as it is; and whenever
    something already has the computed name, [archive] returns the
    locator without touching it. *)
Theorem archive_sha_twice self e e' p p' req req' w r1 w1 :
  isabs (getcwd e) = true ->
  getcwd e' = getcwd e ->
  use_sha self = true ->
  content p' = content p ->
  archive self e p req w = (Ok r1, w1) ->
  archive self e' p' req' w1 = (Ok r1, w1)
  /\ (forall w0 c0,
        read_file (getcwd e) (archive_path self e p) (fs w0) = Ok c0 ->
        archive self e p req w0 = (Ok r1, w0)).
Proof.
  intros Hcwd Hc Hs Hp H. unfold archive_path.
  assert (Hname : is_name (fst (archive_location self e p)) = true)
    by (apply archive_filename_is_name; now left).
  destruct (archive_ok _ _ _ _ _ _ _ Hcwd Hname H) as (-> & Hex & _).
  pose proof (archive_location_sha self e e' p p' Hs Hc Hp) as Hloc.
  split.
  - rewrite <- Hloc.
    apply archive_existing; rewrite ?Hloc, ?Hc; assumption.
  - intros w0 c0 Hr. apply archive_existing; try assumption.
    eapply read_file_exists. exact Hr.
Qed.

Lemma archive_sha_twice_witness :
  isabs (getcwd Samples.host) = true
  /\ use_sha Samples.defaults = true
  /\ archive Samples.defaults Samples.host Samples.hello tt Samples.start
     = (Ok (locator "/tmp/arc/a/a/f/4/c"
              "aaf4c61ddcc5e8a2dabede0f3b482cd9aea9434d"),
        Samples.archived)
  /\ archive Samples.defaults Samples.host Samples.hello tt Samples.archived
     = (Ok (locator "/tmp/arc/a/a/f/4/c"
              "aaf4c61ddcc5e8a2dabede0f3b482cd9aea9434d"),
        Samples.archived).
Proof.
  assert (Hfirst :
    archive Samples.defaults Samples.host Samples.hello tt Samples.start
    = (Ok (locator "/tmp/arc/a/a/f/4/c"
             "aaf4c61ddcc5e8a2dabede0f3b482cd9aea9434d"),
       Samples.archived)) by (vm_compute; reflexivity).
  do 2 (split; [reflexivity |]). split; [exact Hfirst |].
  apply (archive_sha_twice Samples.defaults Samples.host Samples.host
           Samples.hello Samples.hello tt tt Samples.start);
    try reflexivity; exact Hfirst.
Defined.

(** C10. Without the digest, a second payload archived under the
    identifier of a first one (and the same date directory) raises
    nothing and gets the first one's locator; the file keeps the first
    payload's bytes, and those are what retrieval through the locator
    returns. *)
Theorem archive_id_collision self e e' p p' req req' w r1 w1 :
  isabs (getcwd e) = true ->
  getcwd e' = getcwd e ->
  use_sha self = false ->
  (date_mode self = true ->
   now_strftime e' (date_format self) = now_strftime e (date_format self)) ->
  payload_id (results p') = payload_id (results p) ->
  content p' <> content p ->
  is_name (payload_id (results p)) = true ->
  path_exists (getcwd e) (archive_path self e p) (fs w) = false ->
  archive self e p req w = (Ok r1, w1) ->
  archive self e' p' req' w1 = (Ok r1, w1)
  /\ read_file (getcwd e) (archive_path self e p) (fs w1) = Ok (content p)
  /\ exists got w2,
       get self e' r1 w1 = (Ok got, w2)
       /\ content got = content p
       /\ content got <> content p'.
Proof.
  intros Hcwd Hc Hs Hd Hid Hdiff Hn Hfree H. unfold archive_path in *.
  assert (Hname : is_name (fst (archive_location self e p)) = true)
    by (apply archive_filename_is_name; now right).
  destruct (archive_ok _ _ _ _ _ _ _ Hcwd Hname H) as (-> & Hex & _ & _ & Hread).
  specialize (Hread Hfree).
  pose proof (archive_location_id self e e' p p' Hs Hc Hd Hid) as Hloc.
  split; [| split].
  - rewrite <- Hloc.
    apply archive_existing; rewrite ?Hloc, ?Hc; assumption.
  - exact Hread.
  - rewrite get_locator; rewrite ?Hc; try assumption.
    + rewrite Hread.
      eexists. eexists. split; [reflexivity |]. simpl. split; congruence.
    + destruct (archive_location_dir_abspath self e p) as [raw ->].
      apply abspath_nonempty.
Qed.

Lemma archive_id_collision_witness :
  isabs (getcwd Samples.host) = true
  /\ use_sha Samples.by_id = false
  /\ payload_id (results Samples.other) = payload_id (results Samples.hello)
  /\ content Samples.other <> content Samples.hello
  /\ is_name (payload_id (results Samples.hello)) = true
  /\ path_exists (getcwd Samples.host)
       (archive_path Samples.by_id Samples.host Samples.hello)
       (fs Samples.start) = false
  /\ archive Samples.by_id Samples.host Samples.hello tt Samples.start
     = (Ok (locator "/home/stoq/archive/2024/05/17" "7b0c6a52"),
        Samples.archived_by_id)
  /\ archive Samples.by_id Samples.host Samples.other tt Samples.archived_by_id
     = (Ok (locator "/home/stoq/archive/2024/05/17" "7b0c6a52"),
        Samples.archived_by_id)
  /\ read_file (getcwd Samples.host)
       (archive_path Samples.by_id Samples.host Samples.hello)
       (fs Samples.archived_by_id)
     = Ok (content Samples.hello).
Proof.
  assert (Hdiff : content Samples.other <> content Samples.hello)
    by (vm_compute; discriminate).
  assert (Hfirst :
    archive Samples.by_id Samples.host Samples.hello tt Samples.start
    = (Ok (locator "/home/stoq/archive/2024/05/17" "7b0c6a52"),
       Samples.archived_by_id)) by (vm_compute; reflexivity).
  destruct (archive_id_collision Samples.by_id Samples.host Samples.host
              Samples.hello Samples.other tt tt Samples.start
              (locator "/home/stoq/archive/2024/05/17" "7b0c6a52")
              Samples.archived_by_id)
    as (Hsecond & Hread & _);
    try reflexivity; try assumption.
  do 3 (split; [reflexivity || assumption |]).
  split; [assumption |].
  do 2 (split; [reflexivity |]).
  split; [exact Hfirst |]. split; [exact Hsecond | exact Hread].
Defined.

(** C3, as the code has it. When the computed name is free before the
    call, or already holds the payload's bytes, retrieval through the
    locator [archive] returned gives the payload's bytes back, with the
    locator's fields as metadata.  (Without the digest the host's
    identifier has to be a plain file name.) *)
Theorem archive_then_get self e e' p req w r1 w1 :
  isabs (getcwd e) = true ->
  getcwd e' = getcwd e ->
  use_sha self = true \/ is_name (payload_id (results p)) = true ->
  path_exists (getcwd e) (archive_path self e p) (fs w) = false
  \/ read_file (getcwd e) (archive_path self e p) (fs w) = Ok (content p) ->
  archive self e p req w = (Ok r1, w1) ->
  exists got w2,
    get self e' r1 w1 = (Ok got, w2)
    /\ content got = content p
    /\ extra_data (payload_meta got) = archiver_results r1
    /\ fs w2 = fs w1.
Proof.
  intros Hcwd Hc Hmode Hpre H. unfold archive_path in *.
  pose proof (archive_filename_is_name self e p Hmode) as Hname.
  assert (Hread : read_file (getcwd e) (archive_path self e p) (fs w1)
                  = Ok (content p)
                  /\ r1 = locator (snd (archive_location self e p))
                                  (fst (archive_location self e p))).
  { destruct Hpre as [Hfree | Hthere].
    - destruct (archive_ok _ _ _ _ _ _ _ Hcwd Hname H) as (-> & _ & _ & _ & Hr).
      split; [exact (Hr Hfree) | reflexivity].
    - rewrite archive_existing in H; try assumption.
      + injection H as <- <-. split; [assumption | reflexivity].
      + eapply read_file_exists. exact Hthere. }
  destruct Hread as [Hread ->]. unfold archive_path in Hread.
  rewrite get_locator; rewrite ?Hc; try assumption.
  - rewrite Hread.
    eexists. eexists. split; [reflexivity |]. simpl. auto.
  - destruct (archive_location_dir_abspath self e p) as [raw ->].
    apply abspath_nonempty.
Qed.

Lemma archive_then_get_witness :
  isabs (getcwd Samples.host) = true
  /\ (use_sha Samples.defaults = true
      \/ is_name (payload_id (results Samples.hello)) = true)
  /\ (path_exists (getcwd Samples.host)
        (archive_path Samples.defaults Samples.host Samples.hello)
        (fs Samples.start) = false
      \/ read_file (getcwd Samples.host)
           (archive_path Samples.defaults Samples.host Samples.hello)
           (fs Samples.start) = Ok (content Samples.hello))
  /\ archive Samples.defaults Samples.host Samples.hello tt Samples.start
     = (Ok (locator "/tmp/arc/a/a/f/4/c"
              "aaf4c61ddcc5e8a2dabede0f3b482cd9aea9434d"),
        Samples.archived)
  /\ exists got w2,
       get Samples.defaults Samples.host
         (locator "/tmp/arc/a/a/f/4/c"
            "aaf4c61ddcc5e8a2dabede0f3b482cd9aea9434d") Samples.archived
       = (Ok got, w2)
       /\ content got = content Samples.hello
       /\ extra_data (payload_meta got)
          = [("path",
              "/tmp/arc/a/a/f/4/c/aaf4c61ddcc5e8a2dabede0f3b482cd9aea9434d")]
       /\ fs w2 = fs Samples.archived.
Proof.
  assert (Hfirst :
    archive Samples.defaults Samples.host Samples.hello tt Samples.start
    = (Ok (locator "/tmp/arc/a/a/f/4/c"
             "aaf4c61ddcc5e8a2dabede0f3b482cd9aea9434d"),
       Samples.archived)) by (vm_compute; reflexivity).
  split; [reflexivity |]. split; [now left |].
  split; [left; vm_compute; reflexivity |]. split; [exact Hfirst |].
  apply (archive_then_get Samples.defaults Samples.host Samples.host
           Samples.hello tt Samples.start);
    [reflexivity | reflexivity | now left | left; vm_compute; reflexivity
    | exact Hfirst].
Defined.

(** C3, as stated, fails: archived under an identifier that is taken,
    a payload is answered with a locator behind which other bytes lie. *)
Lemma archive_then_get_differs :
  ~ (forall self e p req w r1 w1 got w2,
       archive self e p req w = (Ok r1, w1) ->
       get self e r1 w1 = (Ok got, w2) ->
       content got = content p).
Proof.
  intros H.
  pose (w1 := snd (archive Samples.by_id Samples.host Samples.hello tt Samples.start)).
  pose (run := archive Samples.by_id Samples.host Samples.other tt w1).
  assert (Hrun : exists r2, fst run = Ok r2
                 /\ exists got,
                      fst (get Samples.by_id Samples.host r2 (snd run)) = Ok got
                      /\ content got = Samples.bytes "hello").
  { vm_compute. eexists. split; [reflexivity |]. eexists. split; reflexivity. }
  destruct Hrun as (r2 & Hr2 & got & Hg & Hcontent).
  specialize (H Samples.by_id Samples.host Samples.other tt w1 r2 (snd run) got
                (snd (get Samples.by_id Samples.host r2 (snd run)))).
  rewrite Hcontent in H.
  assert (Habsurd : Samples.bytes "hello" = content Samples.other).
  { apply H.
    - rewrite <- Hr2. fold run. now destruct run.
    - rewrite <- Hg. now destruct (get _ _ r2 (snd run)). }
  vm_compute in Habsurd. discriminate.
Qed.

(** [shard] spells the first five characters, a directory each. *)
Lemma shard_head d1 d2 d3 d4 d5 rest :
  shard (String d1 (String d2 (String d3 (String d4 (String d5 rest)))))
  = String d1 (String slash (String d2 (String slash (String d3
      (String slash (String d4 (String slash (String d5 EmptyString)))))))).
Proof. reflexivity. Qed.

Lemma sep_shard a d1 d2 d3 d4 d5 rest :
  sep a (shard (String d1 (String d2 (String d3 (String d4 (String d5 rest))))))
  = sep (sep (sep (sep (sep a (String d1 EmptyString)) (String d2 EmptyString))
                  (String d3 EmptyString)) (String d4 EmptyString))
        (String d5 EmptyString).
Proof.
  rewrite shard_head.
  change (String d1 (String slash ?x)) with (String d1 EmptyString ++ String slash x)%string.
  rewrite sep_assoc.
  change (String d2 (String slash ?x)) with (String d2 EmptyString ++ String slash x)%string.
  rewrite sep_assoc.
  change (String d3 (String slash ?x)) with (String d3 EmptyString ++ String slash x)%string.
  rewrite sep_assoc.
  change (String d4 (String slash ?x)) with (String d4 EmptyString ++ String slash x)%string.
  now rewrite sep_assoc.
Qed.

Lemma archive_location_of_sha self e p :
  use_sha self = true ->
  archive_location self e p
  = (Sha1.hexdigest (content p),
     abspath (getcwd e)
       (sep (archive_dir self) (shard (Sha1.hexdigest (content p))))).
Proof. intros H. unfold archive_location. now rewrite H. Qed.

(** C1. In digest mode [archive] returns the locator whose path is the
    absolute form of [archive_dir/d1/d2/d3/d4/d5/digest], the digest
    being the forty lowercase hexadecimal characters of the SHA-1 of the
    payload and [d1] to [d5] its first five; for the payload [hello]
    under [/tmp/arc] that is
    [/tmp/arc/a/a/f/4/c/aaf4c61ddcc5e8a2dabede0f3b482cd9aea9434d]. *)
Theorem archive_sha_path :
  (forall self e p req w,
     isabs (getcwd e) = true ->
     use_sha self = true ->
     is_ok (mkdir_parents (getcwd e) (snd (archive_location self e p)) (fs w))
     = true ->
     exists d1 d2 d3 d4 d5 rest,
       Sha1.hexdigest (content p)
       = String d1 (String d2 (String d3 (String d4 (String d5 rest))))
       /\ String.length (Sha1.hexdigest (content p)) = 40
       /\ Sha1.all_lower_hex (Sha1.hexdigest (content p)) = true
       /\ fst (archive self e p req w)
          = Ok {| archiver_results :=
                    [("path",
                      abspath (getcwd e)
                        (sep (sep (sep (sep (sep (sep (archive_dir self)
                           (String d1 EmptyString)) (String d2 EmptyString))
                           (String d3 EmptyString)) (String d4 EmptyString))
                           (String d5 EmptyString))
                           (Sha1.hexdigest (content p))))] |})
  /\ (forall self e p req w,
        isabs (getcwd e) = true ->
        use_sha self = true ->
        is_ok (mkdir_parents (getcwd e) (snd (archive_location self e p)) (fs w))
        = true ->
        archive_dir self = "/tmp/arc" ->
        content p = list_byte_of_string "hello" ->
        fst (archive self e p req w)
        = Ok {| archiver_results :=
                  [("path",
                    "/tmp/arc/a/a/f/4/c/aaf4c61ddcc5e8a2dabede0f3b482cd9aea9434d")]
             |}).
Proof.
  assert (General : forall self e p req w,
     isabs (getcwd e) = true ->
     use_sha self = true ->
     is_ok (mkdir_parents (getcwd e) (snd (archive_location self e p)) (fs w))
     = true ->
     exists d1 d2 d3 d4 d5 rest,
       Sha1.hexdigest (content p)
       = String d1 (String d2 (String d3 (String d4 (String d5 rest))))
       /\ String.length (Sha1.hexdigest (content p)) = 40
       /\ Sha1.all_lower_hex (Sha1.hexdigest (content p)) = true
       /\ fst (archive self e p req w)
          = Ok {| archiver_results :=
                    [("path",
                      abspath (getcwd e)
                        (sep (sep (sep (sep (sep (sep (archive_dir self)
                           (String d1 EmptyString)) (String d2 EmptyString))
                           (String d3 EmptyString)) (String d4 EmptyString))
                           (String d5 EmptyString))
                           (Sha1.hexdigest (content p))))] |}).
  { intros self e p req w Hcwd Hs Hm.
    assert (Hname : is_name (fst (archive_location self e p)) = true)
      by (apply archive_filename_is_name; now left).
    destruct (archive_succeeds self e p req w Hcwd Hname Hm) as [w1 Hrun].
    rewrite Hrun. simpl fst. clear Hrun Hm.
    rewrite (archive_location_of_sha _ _ _ Hs) in *. simpl fst in *. simpl snd.
    pose proof (Sha1Facts.hexdigest_lower_hex (content p)) as Hhex.
    pose proof (Sha1Facts.hexdigest_length (content p)) as Hlen.
    destruct (Sha1Facts.hexdigest_head (content p))
      as (d1 & d2 & d3 & d4 & d5 & rest & E).
    exists d1, d2, d3, d4, d5, rest.
    repeat split; try assumption.
    unfold locator. do 4 f_equal.
    set (digest := Sha1.hexdigest (content p)) in *.
    rewrite E at 1. rewrite sep_shard.
    symmetry. apply abspath_sep_name; try assumption.
    - rewrite !sep_length. simpl. lia.
    - assert (H5 : is_name (String d5 EmptyString) = true).
      { apply Sha1Facts.hex_char_is_name.
        rewrite E in Hhex. unfold Sha1.all_lower_hex in Hhex. simpl in Hhex.
        repeat (apply andb_prop in Hhex; destruct Hhex as [? Hhex]).
        assumption. }
      rewrite components_sep_name; [| apply sep_nonempty | assumption].
      destruct (components _ _); discriminate. }
  split; [exact General |].
  intros self e p req w Hcwd Hs Hm Hdir Hp.
  destruct (General self e p req w Hcwd Hs Hm)
    as (d1 & d2 & d3 & d4 & d5 & rest & E & _ & _ & ->).
  rewrite Hp in *. rewrite Hdir.
  assert (Hd : Sha1.hexdigest (list_byte_of_string "hello")
               = "aaf4c61ddcc5e8a2dabede0f3b482cd9aea9434d")
    by (vm_compute; reflexivity).
  rewrite Hd in *. injection E as <- <- <- <- <- _.
  vm_compute. reflexivity.
Qed.

Lemma archive_sha_path_witness :
  isabs (getcwd Samples.host) = true
  /\ use_sha Samples.defaults = true
  /\ is_ok (mkdir_parents (getcwd Samples.host)
              (snd (archive_location Samples.defaults Samples.host Samples.hello))
              (fs Samples.start)) = true
  /\ archive_dir Samples.defaults = "/tmp/arc"
  /\ content Samples.hello = list_byte_of_string "hello"
  /\ fst (archive Samples.defaults Samples.host Samples.hello tt Samples.start)
     = Ok {| archiver_results :=
               [("path",
                 "/tmp/arc/a/a/f/4/c/aaf4c61ddcc5e8a2dabede0f3b482cd9aea9434d")]
          |}.
Proof.
  do 2 (split; [reflexivity |]). split; [vm_compute; reflexivity |].
  do 2 (split; [reflexivity |]).
  apply (proj2 archive_sha_path Samples.defaults Samples.host Samples.hello tt
           Samples.start);
    vm_compute; reflexivity.
Defined.

(** *** The provider *)

Lemma _queue_run e path w c :
  read_path (getcwd e) path (fs w) = Ok c ->
  _queue e path w
  = (Ok tt,
     {| fs := fs w;
        queue :=
          queue w
          ++ [{| content := c;
                 payload_meta :=
                   {| extra_data :=
                        [("filename", basename path);
                         ("source_dir", dirname path)] |};
                 results := {| payload_id := uuid4 e (drawn w) |} |}];
        drawn := S (drawn w) |}).
Proof.
  intros H. unfold _queue, bind, lift_read, new_Payload, put. now rewrite H.
Qed.

Lemma _queue_err e path w err :
  read_path (getcwd e) path (fs w) = Err err -> _queue e path w = (Err err, w).
Proof.
  intros H. unfold _queue, bind, lift_read. now rewrite H.
Qed.

Lemma for_each_cons {A} (x : A) l body w :
  for_each (x :: l) body w
  = match body x w with
    | (Ok _, w') => for_each l body w'
    | (Err err, w') => (Err err, w')
    end.
Proof. reflexivity. Qed.

Lemma for_each_app {A} (l1 l2 : list A) body w :
  for_each (l1 ++ l2) body w
  = match for_each l1 body w with
    | (Ok _, w') => for_each l2 body w'
    | (Err err, w') => (Err err, w')
    end.
Proof.
  revert w. induction l1 as [| x l1 IH]; intros w; [reflexivity |].
  simpl app. rewrite !for_each_cons.
  destruct (body x w) as [[[] | err] w']; [apply IH | reflexivity].
Qed.

Lemma queued_nil w : queued w [] = w.
Proof.
  destruct w. unfold queued. simpl. now rewrite app_nil_r, Nat.add_0_r.
Qed.

Lemma queued_app w l1 l2 : queued (queued w l1) l2 = queued w (l1 ++ l2).
Proof.
  unfold queued. simpl. rewrite <- app_assoc, length_app. f_equal. lia.
Qed.

Lemma stat_nonempty cwd p root x : stat cwd p root = Ok x -> p <> EmptyString.
Proof. intros H. now destruct (stat_inv _ _ _ _ H). Qed.

(** Reading a file of a directory through the directory's path, the way
    the system follows it. *)
Lemma read_entry cwd dir name c root es :
  stat cwd dir root = Ok (Dir es) ->
  names_ok es = true ->
  In (name, File c) es ->
  read_path cwd (join dir name) root = Ok c.
Proof.
  intros Hl Hok Hin.
  pose proof (names_ok_is_name _ _ _ Hok Hin) as Hname.
  unfold read_path.
  now rewrite (stat_join_name _ _ _ _ _ Hname Hl), (find_in _ _ _ Hok Hin).
Qed.

Lemma queue_entry e dir name c w es :
  stat (getcwd e) dir (fs w) = Ok (Dir es) ->
  names_ok es = true ->
  In (name, File c) es ->
  exists item,
    _queue e (join dir name) w = (Ok tt, queued w [item])
    /\ work_unit item = unit_for dir name c.
Proof.
  intros Hl Hok Hin.
  pose proof (stat_nonempty _ _ _ _ Hl) as Hdir.
  pose proof (names_ok_is_name _ _ _ Hok Hin) as Hname.
  rewrite (_queue_run _ _ _ c) by (eapply read_entry; eassumption).
  eexists. split.
  - unfold queued. simpl. rewrite Nat.add_1_r. reflexivity.
  - unfold work_unit, unit_for. simpl.
    now rewrite (basename_join_name _ _ Hdir Hname).
Qed.

Lemma flat_loop e src es : forall l w,
  stat (getcwd e) src (fs w) = Ok (Dir es) ->
  names_ok es = true ->
  incl l es ->
  exists items,
    for_each l
      (fun entry =>
         if (negb (startswith_dot (fst entry)) && is_file (snd entry))%bool
         then _queue e (join src (fst entry))
         else ret tt) w
    = (Ok tt, queued w items)
    /\ map work_unit items
       = map (fun entry => unit_for src (fst entry) (file_content (snd entry)))
             (filter visible l).
Proof.
  induction l as [| [name x] l IH]; intros w Hl Hok Hincl.
  - exists []. rewrite queued_nil. split; reflexivity.
  - rewrite for_each_cons. simpl filter. unfold visible at 1.
    cbv beta. cbn [fst snd].
    assert (Hincl' : incl l es) by (intros y Hy; apply Hincl; now right).
    destruct (negb (startswith_dot name) && is_file x)%bool eqn:V.
    + apply andb_prop in V. destruct V as [_ Hfile].
      destruct x as [c | |]; try discriminate.
      destruct (queue_entry e src name c w es Hl Hok) as (item & -> & Hu).
      { apply Hincl. now left. }
      destruct (IH (queued w [item]) Hl Hok Hincl') as (items & -> & Hi).
      exists (item :: items). rewrite queued_app. split; [reflexivity |].
      simpl. now rewrite Hu, Hi.
    + unfold ret at 1.
      destruct (IH w Hl Hok Hincl') as (items & -> & Hi).
      exists items. split; [reflexivity | assumption].
Qed.

Lemma ingest_run self e w src :
  source_dir self = Some src ->
  src <> EmptyString ->
  ingest self e w
  = if isdir (getcwd e) src (fs w) then
      if recursive self then
        for_each (os_walk (getcwd e) src (fs w)) (walk_body e) w
      else
        match scandir (getcwd e) src (fs w) with
        | Ok entries =>
            for_each entries
              (fun entry =>
                 if (negb (startswith_dot (fst entry)) && is_file (snd entry))%bool
                 then _queue e (join src (fst entry))
                 else ret tt) w
        | Err err => (Err err, w)
        end
    else if isfile (getcwd e) src (fs w) then _queue e src w
    else (Ok tt, w).
Proof.
  intros Hs Hsrc. unfold ingest. rewrite Hs.
  destruct src as [| c0 r0]; [contradiction |].
  unfold bind at 1. unfold get_fs.
  destruct (isdir _ _ (fs w)).
  - destruct (recursive self).
    + reflexivity.
    + unfold bind, lift_read. destruct (scandir _ _ (fs w)); reflexivity.
  - destruct (isfile _ _ (fs w)); reflexivity.
Qed.

(** C6. Not recursive, [ingest] queues the regular files among the
    entries of the source directory whose names do not start with a dot,
    each once and nothing else: no hidden entry, no subdirectory, nothing
    from below a subdirectory.  The source directory is the one the
    system finds at the path as configured. *)
Theorem ingest_flat self e w src es :
  source_dir self = Some src ->
  recursive self = false ->
  stat (getcwd e) src (fs w) = Ok (Dir es) ->
  names_ok es = true ->
  exists items,
    ingest self e w = (Ok tt, queued w items)
    /\ map work_unit items
       = map (fun entry => unit_for src (fst entry) (file_content (snd entry)))
           (filter
              (fun entry =>
                 negb (startswith_dot (fst entry)) && is_file (snd entry))%bool
              es)
    /\ forall item, In item items ->
         exists name c,
           In (name, File c) es
           /\ startswith_dot name = false
           /\ work_unit item = unit_for src name c.
Proof.
  intros Hs Hrec Hl Hok.
  pose proof (stat_nonempty _ _ _ _ Hl) as Hsrc.
  destruct (flat_loop e src es es w Hl Hok (incl_refl es))
    as (items & Hrun & Hunits).
  exists items. split; [| split].
  - rewrite (ingest_run _ _ _ _ Hs Hsrc), Hrec.
    unfold isdir, scandir. rewrite Hl. exact Hrun.
  - exact Hunits.
  - intros item Hin.
    assert (Hu : In (work_unit item) (map work_unit items))
      by (apply in_map; assumption).
    rewrite Hunits in Hu. apply in_map_iff in Hu.
    destruct Hu as ([name x] & Heq & Hf).
    apply filter_In in Hf. destruct Hf as [Hes V].
    unfold visible in V. simpl in V.
    apply andb_prop in V. destruct V as [Hdot Hfile].
    destruct x as [c | |]; try discriminate.
    exists name, c. repeat split; [assumption | | now symmetry].
    now apply negb_true_iff.
Qed.

Lemma ingest_flat_witness :
  source_dir Samples.defaults = Some "/data"
  /\ recursive Samples.defaults = false
  /\ stat (getcwd Samples.host) "/data" (fs Samples.start)
     = Ok (Dir [("a.txt", File (Samples.bytes "alpha"));
                (".hidden", File (Samples.bytes "secret"));
                ("sub",
                 Dir [("b.bin", File (Samples.bytes "beta"));
                      ("deep", Dir [("c", File (Samples.bytes "gamma"))])]);
                ("empty", Dir [])])
  /\ exists items,
       ingest Samples.defaults Samples.host Samples.start
       = (Ok tt, queued Samples.start items)
       /\ map work_unit items
          = [(Samples.bytes "alpha",
              [("filename", "a.txt"); ("source_dir", "/data")])].
Proof.
  do 3 (split; [reflexivity |]).
  destruct (ingest_flat Samples.defaults Samples.host Samples.start "/data"
              [("a.txt", File (Samples.bytes "alpha"));
               (".hidden", File (Samples.bytes "secret"));
               ("sub",
                Dir [("b.bin", File (Samples.bytes "beta"));
                     ("deep", Dir [("c", File (Samples.bytes "gamma"))])]);
               ("empty", Dir [])])
    as (items & Hrun & Hunits & _);
    [reflexivity | reflexivity | reflexivity | reflexivity |].
  exists items. split; [exact Hrun | exact Hunits].
Defined.

Lemma fs_queued w items : fs (queued w items) = fs w.
Proof. reflexivity. Qed.

(** The inner loop: the files of one directory. *)
Lemma files_loop e dir es : forall l w,
  stat (getcwd e) dir (fs w) = Ok (Dir es) ->
  names_ok es = true ->
  incl l es ->
  (forall name x, In (name, x) l -> regular x = true) ->
  exists items,
    for_each (map fst (filter (fun entry => negb (is_dir (snd entry))) l))
      (fun entry => _queue e (join dir entry)) w
    = (Ok tt, queued w items)
    /\ map work_unit items = map (unit_at dir) (flat_map file_entry l).
Proof.
  induction l as [| [name x] l IH]; intros w Hl Hok Hincl Hreg.
  - exists []. rewrite queued_nil. split; reflexivity.
  - assert (Hincl' : incl l es) by (intros y Hy; apply Hincl; now right).
    assert (Hreg' : forall n y, In (n, y) l -> regular y = true)
      by (intros n y Hy; apply (Hreg n); now right).
    simpl filter. simpl flat_map. unfold file_entry at 1. cbn [fst snd].
    destruct x as [c | | es'].
    + simpl map at 1. rewrite for_each_cons.
      destruct (queue_entry e dir name c w es Hl Hok) as (item & -> & Hu).
      { apply Hincl. now left. }
      destruct (IH (queued w [item]) Hl Hok Hincl' Hreg') as (items & -> & Hi).
      exists (item :: items). rewrite queued_app. split; [reflexivity |].
      simpl. now rewrite Hu, Hi.
    + exfalso. specialize (Hreg name Special (or_introl eq_refl)). discriminate.
    + simpl negb. cbv iota. simpl app. now apply IH.
Qed.

(** The outer loop: a directory and everything below it. *)
Lemma walk_loop e n : forall dir w,
  stat (getcwd e) dir (fs w) = Ok n ->
  is_dir n = true ->
  well_formed n = true ->
  regular n = true ->
  exists items,
    for_each (walk dir n) (walk_body e) w = (Ok tt, queued w items)
    /\ map work_unit items = map (unit_at dir) (files_under n).
Proof.
  induction n as [c0 | | es IH] using node_induction;
    intros dir w Hl Hd Hwf Hreg; try discriminate.
  destruct (well_formed_dir _ Hwf) as [Hok Hch].
  pose proof (regular_dir _ Hreg) as Hregs.
  simpl walk. rewrite for_each_cons. unfold walk_body at 1.
  destruct (files_loop e dir es es w Hl Hok (incl_refl es) Hregs)
    as (items1 & -> & Hu1).
  assert (Below : forall l w',
            fs w' = fs w -> incl l es ->
            exists items,
              for_each
                (flat_map
                   (fun entry =>
                      match snd entry with
                      | Dir _ => walk (join dir (fst entry)) (snd entry)
                      | _ => []
                      end) l) (walk_body e) w'
              = (Ok tt, queued w' items)
              /\ map work_unit items = map (unit_at dir) (flat_map dir_entry l)).
  { induction l as [| [d x] l IHl]; intros w' Hfs Hincl.
    - exists []. rewrite queued_nil. split; reflexivity.
    - assert (Hincl' : incl l es) by (intros y Hy; apply Hincl; now right).
      assert (Hin : In (d, x) es) by (apply Hincl; now left).
      simpl flat_map. unfold dir_entry at 1. cbn [fst snd].
      destruct x as [c | | es'];
        try (simpl app; now apply IHl).
      rewrite for_each_app.
      rewrite Forall_forall in IH.
      pose proof (names_ok_is_name _ _ _ Hok Hin) as Hname.
      pose proof (IH (d, Dir es') Hin) as IHd. cbn [snd] in IHd.
      destruct (IHd (join dir d) w') as (items2 & -> & Hu2).
      + rewrite Hfs.
        now rewrite (stat_join_name _ _ _ _ _ Hname Hl), (find_in _ _ _ Hok Hin).
      + reflexivity.
      + eapply Hch. eassumption.
      + eapply Hregs. eassumption.
      + destruct (IHl (queued w' items2) Hfs Hincl') as (items3 & -> & Hu3).
        exists (items2 ++ items3). rewrite queued_app. split; [reflexivity |].
        rewrite !map_app, Hu2, Hu3. f_equal.
        rewrite map_map. reflexivity. }
  destruct (Below es (queued w items1) eq_refl (incl_refl es))
    as (items2 & -> & Hu2).
  exists (items1 ++ items2). rewrite queued_app. split; [reflexivity |].
  now rewrite files_under_dir, !map_app, Hu1, Hu2.
Qed.



End FileDirFacts.

(** ** More on what the plugin does and does not do *)

Module FileDirBehaviour.
Import Fs FileDir FsFacts PathFacts FileDirFacts.
Import PosixPath.

Lemma read_file_inv cwd t root c :
  read_file cwd t root = Ok c ->
  lookup (components cwd t) root = Ok (File c) /\ names_dir t = false.
Proof.
  unfold read_file.
  destruct (lookup _ _) as [[c0 | | es] | err]; try discriminate.
  destruct (names_dir t); [discriminate |].
  intros H. injection H as ->. auto.
Qed.

Lemma read_file_intro cwd t root c :
  lookup (components cwd t) root = Ok (File c) -> names_dir t = false ->
  read_file cwd t root = Ok c.
Proof. unfold read_file. now intros -> ->. Qed.

Lemma open_x_preserves_file cwd pth c root root' q c0 :
  open_x cwd pth c root = Ok root' ->
  lookup q root = Ok (File c0) -> lookup q root' = Ok (File c0).
Proof.
  intros H. destruct (open_x_inv _ _ _ _ _ H) as [_ Hc].
  now apply create_preserves_file with (1 := Hc).
Qed.

(** X1. Whatever [archive] does, a file that was there stays, with its
    content, and the queue is not touched. *)
Theorem archive_keeps_files self e p req w t c :
  read_file (getcwd e) t (fs w) = Ok c ->
  read_file (getcwd e) t (fs (snd (archive self e p req w))) = Ok c
  /\ queue (snd (archive self e p req w)) = queue w.
Proof.
  intros H. destruct (read_file_inv _ _ _ _ H) as [Hl Hn].
  rewrite archive_run. destruct (archive_location self e p) as [f d].
  unfold mkdir_parents.
  destruct (mkdir_p (components (getcwd e) d) (fs w)) as [fs1 | err] eqn:Hm;
    [| now split].
  pose proof (mkdir_p_preserves_file _ _ _ _ _ Hm Hl) as Hl1.
  destruct (open_x (getcwd e) (sep d f) (content p) fs1) as [fs2 | err] eqn:Ho.
  - split; [| reflexivity]. apply read_file_intro; [| assumption].
    now apply (open_x_preserves_file _ _ _ _ _ _ _ Ho).
  - destruct (error_eqb FileExistsError err); (split; [| reflexivity]);
      now apply read_file_intro.
Qed.

Lemma archive_keeps_files_witness :
  read_file (getcwd Samples.host) "/data/a.txt" (fs Samples.start)
  = Ok (Samples.bytes "alpha")
  /\ read_file (getcwd Samples.host) "/data/a.txt"
       (fs (snd (archive Samples.defaults Samples.host Samples.hello tt
                   Samples.start)))
     = Ok (Samples.bytes "alpha").
Proof.
  split; [reflexivity |].
  apply (archive_keeps_files Samples.defaults Samples.host Samples.hello tt
           Samples.start "/data/a.txt" (Samples.bytes "alpha")).
  reflexivity.
Defined.

(** X2. Whatever [save] does, a file that was there stays, with its content,
    and the queue is not touched. *)
Theorem save_keeps_files self e r w t c :
  read_file (getcwd e) t (fs w) = Ok c ->
  read_file (getcwd e) t (fs (snd (save self e r w))) = Ok c
  /\ queue (snd (save self e r w)) = queue w.
Proof.
  intros H. destruct (read_file_inv _ _ _ _ H) as [Hl Hn].
  rewrite save_run. unfold mkdir_parents.
  destruct (mkdir_p (components (getcwd e) (save_dir self e)) (fs w))
    as [fs1 | err] eqn:Hm; [| now split].
  pose proof (mkdir_p_preserves_file _ _ _ _ _ Hm Hl) as Hl1.
  destruct (open_x (getcwd e) (sep (save_dir self e) (scan_id r))
              (saved_bytes self e r) fs1) as [fs2 | err] eqn:Ho;
    (split; [| reflexivity]); apply read_file_intro; try assumption.
  now apply (open_x_preserves_file _ _ _ _ _ _ _ Ho).
Qed.

Lemma save_keeps_files_witness :
  read_file (getcwd Samples.host) "/data/a.txt" (fs Samples.start)
  = Ok (Samples.bytes "alpha")
  /\ read_file (getcwd Samples.host) "/data/a.txt"
       (fs (snd (save Samples.defaults Samples.host Samples.response
                   Samples.start)))
     = Ok (Samples.bytes "alpha").
Proof.
  split; [reflexivity |].
  apply (save_keeps_files Samples.defaults Samples.host Samples.response
           Samples.start "/data/a.txt" (Samples.bytes "alpha")).
  reflexivity.
Defined.

(** X3. A non-directory where [archive] needs its directory makes it raise,
    and nothing changes: [FileExistsError] when the non-directory has the
    directory's own name, [NotADirectoryError] when it is above.  The
    [except FileExistsError] around the write does not cover this. *)
Theorem archive_blocked self e p req w q r x :
  components (getcwd e) (snd (archive_location self e p)) = q ++ r ->
  lookup q (fs w) = Ok x ->
  is_dir x = false ->
  archive self e p req w
  = (Err (match r with [] => FileExistsError | _ => NotADirectoryError end), w).
Proof.
  intros Hq Hl Hx. rewrite archive_run.
  destruct (archive_location self e p) as [f d]. simpl in Hq.
  unfold mkdir_parents. rewrite Hq.
  now rewrite (mkdir_p_blocked _ _ _ r Hl Hx).
Qed.

Lemma archive_blocked_witness :
  components (getcwd Samples.host)
    (snd (archive_location Samples.defaults Samples.host Samples.hello))
  = ["tmp"; "arc"] ++ ["a"; "a"; "f"; "4"; "c"]
  /\ lookup ["tmp"; "arc"] (fs Samples.blocked)
     = Ok (File (Samples.bytes "not a directory"))
  /\ archive Samples.defaults Samples.host Samples.hello tt Samples.blocked
     = (Err NotADirectoryError, Samples.blocked).
Proof.
  split; [vm_compute; reflexivity |]. split; [reflexivity |].
  apply (archive_blocked Samples.defaults Samples.host Samples.hello tt
           Samples.blocked ["tmp"; "arc"] ["a"; "a"; "f"; "4"; "c"]
           (File (Samples.bytes "not a directory")));
    [vm_compute; reflexivity | reflexivity | reflexivity].
Defined.

(** X4. A non-directory where [save] needs its directory makes it raise, and
    nothing is written. *)
Theorem save_blocked self e resp w q r x :
  components (getcwd e) (save_dir self e) = q ++ r ->
  lookup q (fs w) = Ok x ->
  is_dir x = false ->
  save self e resp w
  = (Err (match r with [] => FileExistsError | _ => NotADirectoryError end), w).
Proof.
  intros Hq Hl Hx. rewrite save_run. unfold mkdir_parents. rewrite Hq.
  now rewrite (mkdir_p_blocked _ _ _ r Hl Hx).
Qed.

Lemma save_blocked_witness :
  components (getcwd Samples.host) (save_dir Samples.defaults Samples.host)
  = ["home"; "stoq"; "results"] ++ []
  /\ lookup ["home"; "stoq"; "results"] (fs Samples.blocked)
     = Ok (File (Samples.bytes "x"))
  /\ save Samples.defaults Samples.host Samples.response Samples.blocked
     = (Err FileExistsError, Samples.blocked).
Proof.
  split; [vm_compute; reflexivity |]. split; [reflexivity |].
  apply (save_blocked Samples.defaults Samples.host Samples.response
           Samples.blocked ["home"; "stoq"; "results"] []
           (File (Samples.bytes "x")));
    [vm_compute; reflexivity | reflexivity | reflexivity].
Defined.

(** X5. When a directory has the name the payload should get, [archive]
    still answers with the locator and changes nothing, and retrieval
    through that locator raises [IsADirectoryError]. *)
Theorem archive_onto_directory self e p req w es :
  isabs (getcwd e) = true ->
  use_sha self = true \/ is_name (payload_id (results p)) = true ->
  lookup (components (getcwd e) (archive_path self e p)) (fs w) = Ok (Dir es) ->
  exists r,
    archive self e p req w = (Ok r, w)
    /\ archiver_results r = [("path", archive_path self e p)]
    /\ get self e r w = (Err IsADirectoryError, w).
Proof.
  intros Hcwd Hmode Hl. unfold archive_path in *.
  pose proof (archive_filename_is_name self e p Hmode) as Hname.
  exists (locator (snd (archive_location self e p))
                  (fst (archive_location self e p))).
  split; [| split].
  - apply archive_existing; try assumption.
    unfold path_exists. now rewrite Hl.
  - reflexivity.
  - rewrite get_locator; try assumption.
    + unfold read_file. now rewrite Hl.
    + destruct (archive_location_dir_abspath self e p) as [raw ->].
      apply abspath_nonempty.
Qed.

Lemma archive_onto_directory_witness :
  isabs (getcwd Samples.host) = true
  /\ lookup (components (getcwd Samples.host)
               (archive_path Samples.by_id Samples.host Samples.hello))
       (fs Samples.squatted) = Ok (Dir [])
  /\ exists r,
       archive Samples.by_id Samples.host Samples.hello tt Samples.squatted
       = (Ok r, Samples.squatted)
       /\ archiver_results r
          = [("path", "/home/stoq/archive/2024/05/17/7b0c6a52")]
       /\ get Samples.by_id Samples.host r Samples.squatted
          = (Err IsADirectoryError, Samples.squatted).
Proof.
  split; [reflexivity |]. split; [vm_compute; reflexivity |].
  apply (archive_onto_directory Samples.by_id Samples.host Samples.hello tt
           Samples.squatted []);
    [reflexivity | right; reflexivity | vm_compute; reflexivity].
Defined.

Lemma archive_result_locator self e p req w r w1 :
  archive self e p req w = (Ok r, w1) ->
  r = locator (snd (archive_location self e p)) (fst (archive_location self e p)).
Proof.
  rewrite archive_run. destruct (archive_location self e p) as [f d]. simpl.
  destruct (mkdir_parents _ _ _) as [fs1 | err]; [| discriminate].
  destruct (open_x _ _ _ fs1) as [fs2 | err].
  - now intros H; injection H as <- _.
  - destruct err; try discriminate. now intros H; injection H as <- _.
Qed.

(** X6. In digest mode the last segment of the locator's path is the digest,
    so payloads with different digests never share a locator. *)
Theorem archive_sha_distinct self e e' p p' req req' w w' r r' w1 w1' :
  use_sha self = true ->
  Sha1.hexdigest (content p) <> Sha1.hexdigest (content p') ->
  archive self e p req w = (Ok r, w1) ->
  archive self e' p' req' w' = (Ok r', w1') ->
  r <> r'
  /\ exists path,
       archiver_results r = [("path", path)]
       /\ basename path = Sha1.hexdigest (content p).
Proof.
  intros Hs Hd H H'.
  rewrite (archive_result_locator _ _ _ _ _ _ _ H).
  rewrite (archive_result_locator _ _ _ _ _ _ _ H').
  rewrite !(archive_location_of_sha _ _ _ Hs). simpl fst. simpl snd.
  assert (Hb : forall d c, basename (sep d (Sha1.hexdigest c)) = Sha1.hexdigest c).
  { intros d c. apply basename_app_slash.
    apply Sha1Facts.lower_hex_no_slash, Sha1Facts.hexdigest_lower_hex. }
  split.
  - intros Heq. unfold locator in Heq. injection Heq as Heq.
    apply Hd. apply (f_equal basename) in Heq. now rewrite !Hb in Heq.
  - eexists. split; [reflexivity | apply Hb].
Qed.

Lemma archive_sha_distinct_witness :
  use_sha Samples.defaults = true
  /\ Sha1.hexdigest (content Samples.hello)
     <> Sha1.hexdigest (content Samples.other)
  /\ archive Samples.defaults Samples.host Samples.hello tt Samples.start
     = (Ok (locator "/tmp/arc/a/a/f/4/c"
              "aaf4c61ddcc5e8a2dabede0f3b482cd9aea9434d"),
        Samples.archived)
  /\ archive Samples.defaults Samples.host Samples.other tt Samples.archived
     = (Ok (locator "/tmp/arc/3/c/8/e/c"
              "3c8ec4874488f6090a157b014ce3397ca8e06d4f"),
        snd (archive Samples.defaults Samples.host Samples.other tt
               Samples.archived))
  /\ locator "/tmp/arc/a/a/f/4/c" "aaf4c61ddcc5e8a2dabede0f3b482cd9aea9434d"
     <> locator "/tmp/arc/3/c/8/e/c" "3c8ec4874488f6090a157b014ce3397ca8e06d4f".
Proof.
  assert (Hd : Sha1.hexdigest (content Samples.hello)
               <> Sha1.hexdigest (content Samples.other))
    by (vm_compute; discriminate).
  assert (H1 :
    archive Samples.defaults Samples.host Samples.hello tt Samples.start
    = (Ok (locator "/tmp/arc/a/a/f/4/c"
             "aaf4c61ddcc5e8a2dabede0f3b482cd9aea9434d"),
       Samples.archived)) by (vm_compute; reflexivity).
  assert (H2 :
    archive Samples.defaults Samples.host Samples.other tt Samples.archived
    = (Ok (locator "/tmp/arc/3/c/8/e/c"
             "3c8ec4874488f6090a157b014ce3397ca8e06d4f"),
       snd (archive Samples.defaults Samples.host Samples.other tt
              Samples.archived))) by (vm_compute; reflexivity).
  split; [reflexivity |]. split; [exact Hd |].
  split; [exact H1 |]. split; [exact H2 |].
  exact (proj1 (archive_sha_distinct Samples.defaults Samples.host Samples.host
                  Samples.hello Samples.other tt tt Samples.start
                  Samples.archived _ _ _ _ eq_refl Hd H1 H2)).
Defined.

(** X7. In digest mode the date directory is not used: [date_mode], the
    date, the format and the payload's identifier change nothing of what
    [archive] does. *)
Theorem archive_sha_ignores_date self self' e e' p p' req req' w :
  use_sha self = true ->
  use_sha self' = true ->
  archive_dir self' = archive_dir self ->
  getcwd e' = getcwd e ->
  content p' = content p ->
  archive self' e' p' req' w = archive self e p req w.
Proof.
  intros Hs Hs' Hdir Hcwd Hc. rewrite !archive_run.
  rewrite (archive_location_of_sha _ _ _ Hs), (archive_location_of_sha _ _ _ Hs').
  now rewrite Hdir, Hcwd, Hc.
Qed.

Lemma archive_sha_ignores_date_witness :
  use_sha Samples.defaults = true
  /\ use_sha Samples.recursively = true
  /\ content Samples.hello = content Samples.hello
  /\ archive
       {| source_dir := None; recursive := false; results_dir := "r";
          date_mode := true; date_format := "%Y"; compactly := false;
          archive_dir := "/tmp/arc"; use_sha := true |}
       Samples.host Samples.hello tt Samples.start
     = archive Samples.defaults Samples.host Samples.hello tt Samples.start.
Proof.
  do 3 (split; [reflexivity |]).
  apply (archive_sha_ignores_date Samples.defaults
           {| source_dir := None; recursive := false; results_dir := "r";
              date_mode := true; date_format := "%Y"; compactly := false;
              archive_dir := "/tmp/arc"; use_sha := true |}
           Samples.host Samples.host Samples.hello Samples.hello tt tt
           Samples.start); reflexivity.
Defined.

(** X8. The path in a locator of [archive] is absolute, so retrieval through
    it does not depend on the working directory of the retrieving
    process. *)
Theorem get_any_cwd self self' e e1 e2 p req w r w1 w' :
  isabs (getcwd e) = true ->
  archive self e p req w = (Ok r, w1) ->
  (forall n, uuid4 e1 n = uuid4 e2 n) ->
  (exists path, archiver_results r = [("path", path)] /\ isabs path = true)
  /\ get self' e1 r w' = get self' e2 r w'.
Proof.
  intros Hcwd H Hid.
  rewrite (archive_result_locator _ _ _ _ _ _ _ H).
  destruct (archive_location_dir_abspath self e p) as [raw Hraw].
  set (f := fst (archive_location self e p)).
  rewrite Hraw.
  assert (Habs : isabs (sep (abspath (getcwd e) raw) f) = true)
    by (apply sep_isabs; now apply abspath_isabs).
  split; [eexists; split; [reflexivity | exact Habs] |].
  unfold get.
  change (archiver_results (locator (abspath (getcwd e) raw) f))
    with [("path", sep (abspath (getcwd e) raw) f)].
  rewrite dict_get_path.
  rewrite (abspath_of_absolute (getcwd e2) (getcwd e1) _ Habs).
  unfold bind, lift_read, new_Payload, read_file.
  rewrite (components_of_absolute (getcwd e2) (getcwd e1)).
  - destruct (lookup _ (fs w')) as [[c | | es] | err]; try reflexivity.
    destruct (names_dir _); [reflexivity |]. now rewrite Hid.
  - unfold abspath. apply normpath_isabs.
    now rewrite (rooted_of_absolute _ _ Habs).
Qed.

Lemma get_any_cwd_witness :
  isabs (getcwd Samples.host) = true
  /\ archive Samples.defaults Samples.host Samples.hello tt Samples.start
     = (Ok (locator "/tmp/arc/a/a/f/4/c"
              "aaf4c61ddcc5e8a2dabede0f3b482cd9aea9434d"),
        Samples.archived)
  /\ get Samples.defaults
       {| getcwd := "/var/elsewhere"; now_strftime := now_strftime Samples.host;
          dumps := dumps Samples.host; uuid4 := uuid4 Samples.host |}
       (locator "/tmp/arc/a/a/f/4/c"
          "aaf4c61ddcc5e8a2dabede0f3b482cd9aea9434d") Samples.archived
     = get Samples.defaults Samples.host
         (locator "/tmp/arc/a/a/f/4/c"
            "aaf4c61ddcc5e8a2dabede0f3b482cd9aea9434d") Samples.archived.
Proof.
  assert (Hfirst :
    archive Samples.defaults Samples.host Samples.hello tt Samples.start
    = (Ok (locator "/tmp/arc/a/a/f/4/c"
             "aaf4c61ddcc5e8a2dabede0f3b482cd9aea9434d"),
       Samples.archived)) by (vm_compute; reflexivity).
  split; [reflexivity |]. split; [exact Hfirst |].
  apply (get_any_cwd Samples.defaults Samples.defaults Samples.host
           {| getcwd := "/var/elsewhere"; now_strftime := now_strftime Samples.host;
              dumps := dumps Samples.host; uuid4 := uuid4 Samples.host |}
           Samples.host Samples.hello tt Samples.start
           (locator "/tmp/arc/a/a/f/4/c"
              "aaf4c61ddcc5e8a2dabede0f3b482cd9aea9434d")
           Samples.archived Samples.archived);
    [reflexivity | exact Hfirst | reflexivity].
Defined.



(** X10. Whatever already has the name of the result, a file, a directory or
    anything else, [save] refuses with [FileExistsError] and changes
    nothing. *)
Theorem save_onto_existing self e r w :
  isabs (getcwd e) = true ->
  is_name (scan_id r) = true ->
  path_exists (getcwd e) (sep (save_dir self e) (scan_id r)) (fs w) = true ->
  save self e r w = (Err FileExistsError, w).
Proof.
  intros Hcwd Hname Hex. rewrite save_run.
  assert (Hcomp : components (getcwd e) (sep (save_dir self e) (scan_id r))
                  = components (getcwd e) (save_dir self e) ++ [scan_id r])
    by (apply components_sep_name; [apply abspath_nonempty | assumption]).
  destruct (path_exists_inv _ _ _ Hex) as [x Hx]. rewrite Hcomp in Hx.
  destruct (lookup_prefix_dir _ _ _ _ _ Hx) as [es Hes].
  unfold mkdir_parents. rewrite (mkdir_p_id _ _ _ Hes).
  unfold open_x. rewrite (names_dir_sep _ _ Hname), Hcomp.
  rewrite (create_exists _ _ _ x);
    [| destruct (components _ (save_dir self e)); discriminate | assumption].
  now rewrite set_fs_same.
Qed.

Lemma save_onto_existing_witness :
  isabs (getcwd Samples.host) = true
  /\ is_name (scan_id Samples.response) = true
  /\ path_exists (getcwd Samples.host)
       (sep (save_dir Samples.by_id Samples.host) (scan_id Samples.response))
       (fs (snd (save Samples.by_id Samples.host Samples.response'
                   Samples.start))) = true
  /\ save Samples.by_id Samples.host Samples.response
       (snd (save Samples.by_id Samples.host Samples.response' Samples.start))
     = (Err FileExistsError,
        snd (save Samples.by_id Samples.host Samples.response' Samples.start)).
Proof.
  do 2 (split; [reflexivity |]). split; [vm_compute; reflexivity |].
  apply (save_onto_existing Samples.by_id Samples.host Samples.response
           (snd (save Samples.by_id Samples.host Samples.response'
                   Samples.start)));
    [reflexivity | reflexivity | vm_compute; reflexivity].
Defined.

(** *** The provider *)

(** X11. A source that is one regular file, found by the system at the
    path as configured, is queued as one unit, whatever [recursive] says:
    the file's bytes, its base name and its directory name. *)
Theorem ingest_single_file self e w src c :
  source_dir self = Some src ->
  stat (getcwd e) src (fs w) = Ok (File c) ->
  exists item,
    ingest self e w = (Ok tt, queued w [item])
    /\ work_unit item
       = (c, [("filename", basename src); ("source_dir", dirname src)]).
Proof.
  intros Hs Hl.
  pose proof (stat_nonempty _ _ _ _ Hl) as Hsrc.
  rewrite (ingest_run _ _ _ _ Hs Hsrc).
  unfold isdir, isfile. rewrite Hl.
  rewrite (_queue_run e src w c) by (unfold read_path; now rewrite Hl).
  eexists. split.
  - unfold queued. simpl. rewrite Nat.add_1_r. reflexivity.
  - reflexivity.
Qed.

Lemma ingest_single_file_witness :
  source_dir Samples.one_file = Some "/data/sub/b.bin"
  /\ stat (getcwd Samples.host) "/data/sub/b.bin" (fs Samples.start)
     = Ok (File (Samples.bytes "beta"))
  /\ exists item,
       ingest Samples.one_file Samples.host Samples.start
       = (Ok tt, queued Samples.start [item])
       /\ work_unit item
          = (Samples.bytes "beta",
             [("filename", "b.bin"); ("source_dir", "/data/sub")]).
Proof.
  do 2 (split; [reflexivity |]).
  apply (ingest_single_file Samples.one_file Samples.host Samples.start
           "/data/sub/b.bin" (Samples.bytes "beta"));
    [reflexivity | reflexivity].
Defined.

Lemma grows_refl w : grows w w.
Proof. split; [reflexivity |]. exists []. now rewrite app_nil_r. Qed.

Lemma grows_trans w1 w2 w3 : grows w1 w2 -> grows w2 w3 -> grows w1 w3.
Proof.
  intros [Hf1 [l1 Hq1]] [Hf2 [l2 Hq2]]. split; [congruence |].
  exists (l1 ++ l2). now rewrite Hq2, Hq1, app_assoc.
Qed.

Lemma _queue_grows e path w : grows w (snd (_queue e path w)).
Proof.
  destruct (read_path (getcwd e) path (fs w)) as [c | err] eqn:H.
  - rewrite (_queue_run _ _ _ _ H). split; [reflexivity |]. simpl. eauto.
  - rewrite (_queue_err _ _ _ _ H). apply grows_refl.
Qed.

Lemma for_each_grows {A} (body : A -> M unit) :
  (forall x w, grows w (snd (body x w))) ->
  forall l w, grows w (snd (for_each l body w)).
Proof.
  intros Hbody. induction l as [| x l IH]; intros w.
  - apply grows_refl.
  - rewrite for_each_cons. specialize (Hbody x w).
    destruct (body x w) as [[[] | err] w']; simpl in Hbody.
    + eapply grows_trans; [exact Hbody | apply IH].
    + exact Hbody.
Qed.

(** X12. Whatever it meets and however it ends, [ingest] leaves the file
    system as it is and only adds at the end of the queue: what was
    queued before an error stays queued. *)
Theorem ingest_grows self e w :
  fs (snd (ingest self e w)) = fs w
  /\ exists items, queue (snd (ingest self e w)) = queue w ++ items.
Proof.
  change (grows w (snd (ingest self e w))).
  destruct (source_dir self) as [src |] eqn:Hs;
    [| unfold ingest; rewrite Hs; apply grows_refl].
  destruct src as [| c0 r0];
    [unfold ingest; rewrite Hs; apply grows_refl |].
  rewrite (ingest_run _ _ _ _ Hs) by discriminate.
  destruct (isdir _ _ (fs w)).
  - destruct (recursive self).
    + apply for_each_grows. intros [[root_path subdirs] files] w0.
      unfold walk_body.
      apply for_each_grows. intros entry w1. apply _queue_grows.
    + destruct (scandir _ _ (fs w)) as [entries | err]; [| apply grows_refl].
      apply for_each_grows. intros entry w0.
      destruct (negb (startswith_dot (fst entry)) && is_file (snd entry))%bool;
        [apply _queue_grows | apply grows_refl].
  - destruct (isfile _ _ (fs w)); [apply _queue_grows | apply grows_refl].
Qed.

(** The files of a directory with an entry that cannot be opened: the
    loop stops there with the error of [open]. *)
Lemma files_loop_unreadable e dir es : forall l w,
  stat (getcwd e) dir (fs w) = Ok (Dir es) ->
  names_ok es = true ->
  incl l es ->
  (exists name, In (name, Special) l) ->
  exists w',
    for_each (map fst (filter (fun entry => negb (is_dir (snd entry))) l))
      (fun entry => _queue e (join dir entry)) w
    = (Err OSError, w')
    /\ grows w w'.
Proof.
  induction l as [| [name x] l IH]; intros w Hl Hok Hincl [sp Hsp];
    [contradiction |].
  assert (Hincl' : incl l es) by (intros y Hy; apply Hincl; now right).
  assert (Hin : In (name, x) es) by (apply Hincl; now left).
  pose proof (names_ok_is_name _ _ _ Hok Hin) as Hname.
  simpl filter. cbn [fst snd].
  destruct x as [c | | es'].
  - simpl map. rewrite for_each_cons.
    destruct (queue_entry e dir name c w es Hl Hok Hin) as (item & -> & _).
    destruct Hsp as [Heq | Hsp]; [discriminate |].
    destruct (IH (queued w [item]) Hl Hok Hincl' (ex_intro _ sp Hsp))
      as (w' & -> & Hg).
    exists w'. split; [reflexivity |].
    eapply grows_trans; [| exact Hg].
    split; [reflexivity |]. simpl. eauto.
  - simpl map. rewrite for_each_cons.
    rewrite (_queue_err e (join dir name) w OSError).
    + exists w. split; [reflexivity | apply grows_refl].
    + unfold read_path.
      now rewrite (stat_join_name _ _ _ _ _ Hname Hl), (find_in _ _ _ Hok Hin).
  - simpl negb. cbv iota.
    destruct Hsp as [Heq | Hsp]; [discriminate |].
    apply IH; eauto.
Qed.

(** X13. Recursive, [ingest] does not look at what an entry is before opening
    it: an entry of the source directory that is neither a directory nor
    an openable file (a socket) makes it stop with [OSError], the file
    system as it was and the units queued so far left on the queue.  The
    source directory is the one the system finds at the path as
    configured. *)
Theorem ingest_recursive_unreadable self e w src es name :
  source_dir self = Some src ->
  recursive self = true ->
  stat (getcwd e) src (fs w) = Ok (Dir es) ->
  names_ok es = true ->
  In (name, Special) es ->
  exists w',
    ingest self e w = (Err OSError, w')
    /\ fs w' = fs w
    /\ exists items, queue w' = queue w ++ items.
Proof.
  intros Hs Hrec Hl Hok Hin.
  pose proof (stat_nonempty _ _ _ _ Hl) as Hsrc.
  rewrite (ingest_run _ _ _ _ Hs Hsrc), Hrec.
  unfold isdir, os_walk. rewrite Hl.
  simpl walk. rewrite for_each_cons. unfold walk_body at 1.
  destruct (files_loop_unreadable e src es es w Hl Hok (incl_refl es)
              (ex_intro _ name Hin)) as (w' & Hrun & Hg).
  rewrite Hrun. exists w'. split; [reflexivity | exact Hg].
Qed.

Lemma ingest_recursive_unreadable_witness :
  source_dir Samples.recursively = Some "/data"
  /\ recursive Samples.recursively = true
  /\ stat (getcwd Samples.host) "/data" (fs Samples.with_socket)
     = Ok (Dir [("a.txt", File (Samples.bytes "alpha")); ("ctl.sock", Special);
                ("z.txt", File (Samples.bytes "omega"))])
  /\ In ("ctl.sock", Special)
       [("a.txt", File (Samples.bytes "alpha")); ("ctl.sock", Special);
        ("z.txt", File (Samples.bytes "omega"))]
  /\ exists w',
       ingest Samples.recursively Samples.host Samples.with_socket
       = (Err OSError, w')
       /\ fs w' = fs Samples.with_socket
       /\ exists items, queue w' = queue Samples.with_socket ++ items.
Proof.
  do 3 (split; [reflexivity |]). split; [right; left; reflexivity |].
  apply (ingest_recursive_unreadable Samples.recursively Samples.host
           Samples.with_socket "/data"
           [("a.txt", File (Samples.bytes "alpha")); ("ctl.sock", Special);
            ("z.txt", File (Samples.bytes "omega"))] "ctl.sock");
    [reflexivity | reflexivity | reflexivity | reflexivity
    | right; left; reflexivity].
Defined.

(** X14. On a source directory below which there are only directories and
    regular files, the two modes differ on hidden files: a regular file
    of the source directory whose name starts with a dot is queued when
    [recursive] is set and is not when it is unset.  The source directory
    is the one the system finds at the path as configured. *)
Theorem ingest_hidden_file flat deep e w src es name c :
  source_dir flat = Some src ->
  source_dir deep = Some src ->
  recursive flat = false ->
  recursive deep = true ->
  stat (getcwd e) src (fs w) = Ok (Dir es) ->
  well_formed (Dir es) = true ->
  regular (Dir es) = true ->
  In (name, File c) es ->
  startswith_dot name = true ->
  (exists items,
     ingest deep e w = (Ok tt, queued w items)
     /\ exists item, In item items /\ work_unit item = unit_for src name c)
  /\ (exists items,
        ingest flat e w = (Ok tt, queued w items)
        /\ forall item, In item items ->
             dict_get "filename" (extra_data (payload_meta item)) <> Some name).
Proof.
  intros Hf Hd Hrf Hrd Hl Hwf Hreg Hin Hdot.
  pose proof (stat_nonempty _ _ _ _ Hl) as Hsrc.
  destruct (well_formed_dir _ Hwf) as [Hok _].
  split.
  - destruct (walk_loop e (Dir es) src w Hl eq_refl Hwf Hreg)
      as (items & Hrun & Hu).
    exists items. split.
    + rewrite (ingest_run _ _ _ _ Hd Hsrc), Hrd.
      unfold isdir, os_walk. rewrite Hl. exact Hrun.
    + assert (Hfile : In ([], name, c) (files_under (Dir es))).
      { apply files_under_lookup; [assumption |]. simpl.
        now rewrite (find_in _ _ _ Hok Hin). }
      apply (in_map (unit_at src)) in Hfile. rewrite <- Hu in Hfile.
      apply in_map_iff in Hfile. destruct Hfile as (item & Heq & Hitem).
      exists item. split; [assumption | exact Heq].
  - destruct (flat_loop e src es es w Hl Hok (incl_refl es))
      as (items & Hrun & Hu).
    exists items. split.
    + rewrite (ingest_run _ _ _ _ Hf Hsrc), Hrf.
      unfold isdir, scandir. rewrite Hl. exact Hrun.
    + intros item Hitem Hget.
      apply (in_map work_unit) in Hitem. rewrite Hu in Hitem.
      apply in_map_iff in Hitem. destruct Hitem as ([n x] & Heq & Hvis).
      apply filter_In in Hvis. destruct Hvis as [_ Hvis].
      unfold visible in Hvis. apply andb_prop in Hvis. destruct Hvis as [Hv _].
      unfold work_unit, unit_for in Heq. injection Heq as _ Hmeta.
      rewrite <- Hmeta in Hget. simpl in Hget. injection Hget as ->.
      simpl in Hv. rewrite Hdot in Hv. discriminate.
Qed.

Lemma ingest_hidden_file_witness :
  source_dir Samples.defaults = Some "/data"
  /\ source_dir Samples.recursively = Some "/data"
  /\ recursive Samples.defaults = false
  /\ recursive Samples.recursively = true
  /\ stat (getcwd Samples.host) "/data" (fs Samples.start)
     = Ok (Dir [("a.txt", File (Samples.bytes "alpha"));
                (".hidden", File (Samples.bytes "secret"));
                ("sub",
                 Dir [("b.bin", File (Samples.bytes "beta"));
                      ("deep", Dir [("c", File (Samples.bytes "gamma"))])]);
                ("empty", Dir [])])
  /\ startswith_dot ".hidden" = true
  /\ (exists items,
        ingest Samples.recursively Samples.host Samples.start
        = (Ok tt, queued Samples.start items)
        /\ exists item,
             In item items
             /\ work_unit item
                = unit_for "/data" ".hidden" (Samples.bytes "secret"))
  /\ (exists items,
        ingest Samples.defaults Samples.host Samples.start
        = (Ok tt, queued Samples.start items)
        /\ forall item, In item items ->
             dict_get "filename" (extra_data (payload_meta item))
             <> Some ".hidden").
Proof.
  do 6 (split; [reflexivity |]).
  apply (ingest_hidden_file Samples.defaults Samples.recursively Samples.host
           Samples.start "/data"
           [("a.txt", File (Samples.bytes "alpha"));
            (".hidden", File (Samples.bytes "secret"));
            ("sub",
             Dir [("b.bin", File (Samples.bytes "beta"));
                  ("deep", Dir [("c", File (Samples.bytes "gamma"))])]);
            ("empty", Dir [])]
           ".hidden" (Samples.bytes "secret"));
    try reflexivity. right; left; reflexivity.
Defined.
End FileDirBehaviour.

(** The system does not cancel [..] against the name before it: that name
    has to be an existing directory. *)
Example stat_examples :
  Fs.stat "/home/stoq" "/data/missing/.." Samples.tree
  = Fs.Err Fs.FileNotFoundError
  /\ Fs.stat "/home/stoq" "/data/a.txt/.." Samples.tree
     = Fs.Err Fs.NotADirectoryError
  /\ Fs.stat "/home/stoq" "/data/a.txt/../a.txt" Samples.tree
     = Fs.Err Fs.NotADirectoryError
  /\ Fs.stat "/home/stoq" "/data/a.txt/" Samples.tree
     = Fs.Err Fs.NotADirectoryError
  /\ Fs.stat "/home/stoq" "/data/a.txt/." Samples.tree
     = Fs.Err Fs.NotADirectoryError
  /\ Fs.stat "/home/stoq" "/data/sub/../a.txt" Samples.tree
     = Fs.Ok (Fs.File (Samples.bytes "alpha"))
  /\ Fs.stat "/home/stoq" "../../data/sub/deep/" Samples.tree
     = Fs.Ok (Fs.Dir [("c", Fs.File (Samples.bytes "gamma"))])
  /\ Fs.stat "/home/stoq" "" Samples.tree = Fs.Err Fs.FileNotFoundError
  /\ Fs.isdir "/home/stoq" "/data/missing/.." Samples.tree = false
  /\ Fs.isfile "/home/stoq" "/data/a.txt/../a.txt" Samples.tree = false
  /\ Fs.isdir "/home/stoq" "/data/sub/.." Samples.tree = true.
Proof. repeat split; reflexivity. Qed.

(** Such sources are neither a directory nor a file: nothing is queued. *)
Example ingest_unresolved_examples :
  FileDir.ingest Samples.above_missing Samples.host Samples.start
  = (Fs.Ok tt, Samples.start)
  /\ FileDir.ingest Samples.through_file Samples.host Samples.start
     = (Fs.Ok tt, Samples.start).
Proof. split; reflexivity. Qed.

Example normpath_examples :
  PosixPath.normpath "/tmp/arc/a/a/f/4/c" = "/tmp/arc/a/a/f/4/c"
  /\ PosixPath.normpath "/tmp//arc/./x/../a/" = "/tmp/arc/a"
  /\ PosixPath.normpath "//a/b" = "//a/b"
  /\ PosixPath.normpath "///a/b" = "/a/b"
  /\ PosixPath.normpath "a/../../b" = "../b"
  /\ PosixPath.normpath "/../b" = "/b"
  /\ PosixPath.normpath "" = "."
  /\ PosixPath.normpath "/" = "/"
  /\ PosixPath.abspath "/home/u" "archive/a/b" = "/home/u/archive/a/b"
  /\ PosixPath.basename "/data/sub/f.txt" = "f.txt"
  /\ PosixPath.dirname "/data/sub/f.txt" = "/data/sub"
  /\ PosixPath.dirname "/data//f.txt" = "/data"
  /\ PosixPath.dirname "/f" = "/"
  /\ PosixPath.dirname "f" = ""
  /\ PosixPath.join "/data/" "f" = "/data/f"
  /\ PosixPath.join "/data" "f" = "/data/f"
  /\ PosixPath.split "/a//b/" = [""; "a"; ""; "b"; ""].
Proof. vm_compute. repeat split. Qed.

Example sha1_abc :
  Sha1.hexdigest (list_byte_of_string "abc")
  = "a9993e364706816aba3e25717850c26c9cd0d89d".
Proof. vm_compute. reflexivity. Qed.

Example sha1_hello :
  Sha1.hexdigest (list_byte_of_string "hello")
  = "aaf4c61ddcc5e8a2dabede0f3b482cd9aea9434d".
Proof. vm_compute. reflexivity. Qed.

Example sha1_empty :
  Sha1.hexdigest []
  = "da39a3ee5e6b4b0d3255bfef95601890afd80709".
Proof. vm_compute. reflexivity. Qed.
